(** * SpotifySuite: a shallow embedding of the playlist / track engine

    The JavaScript sources embedded here are
      - lib/spotify.js       (playlist search, URL parsing, pagination,
                              CSV formatting, album finder, playlist writer),
      - lib/csvProcessor.js  (createEnhancedRecord),
      - the CSV batch processor (processTrackRecord, processAllRecords),
      - the CSV export module (sanitizeFilename, generateUniqueFilename).

    Conventions.  A JavaScript string is a [string] whose characters are
    read as code units below 256.  JavaScript numbers that hold integers
    (years, offsets, counters, milliseconds) are [Z]; [NaN] is [None] in
    an [option Z].  A property that may be [undefined] or [null] is an
    [option].  The remote service is a deterministic function of the
    history of requests, and an [async] function is a computation that
    threads this history and may throw.  A loop whose number of rounds
    depends on the data runs on fuel and answers [None] when the fuel
    runs out; the properties show that the fuel given suffices. *)

From Stdlib Require Import ZArith Lia List String Ascii Permutation Sorted.
From stdpp Require Import base strings gmap list pretty.

Local Open Scope string_scope.
Local Open Scope Z_scope.

(** ** JavaScript built-ins on strings and values *)

Module JS.

(** A JavaScript value, as far as the sources inspect one. *)
Inductive Value : Type :=
| VUndefined
| VNull
| VBool (b : bool)
| VNum (z : Z)
| VNaN
| VStr (s : string).

(** ToBoolean. *)
Definition truthy (v : Value) : bool :=
  match v with
  | VUndefined | VNull | VNaN => false
  | VBool b => b
  | VNum z => negb (z =? 0)
  | VStr s => negb (String.eqb s "")
  end.

(** [typeof v === 'string'] and [typeof v === 'number']. *)
Definition isString (v : Value) : bool :=
  match v with VStr _ => true | _ => false end.

Definition isNumber (v : Value) : bool :=
  match v with VNum _ | VNaN => true | _ => false end.

(** Truthiness of a string-valued property that may be absent. *)
Definition truthyStr (o : option string) : bool :=
  match o with
  | Some s => negb (String.eqb s "")
  | None => false
  end.

(** [o || dflt] for a string-valued property. *)
Definition orElse (o : option string) (dflt : string) : string :=
  match o with
  | Some s => if String.eqb s "" then dflt else s
  | None => dflt
  end.

Definition code (c : ascii) : nat := nat_of_ascii c.

(** White space ([\s], and what [trim] and [parseInt] strip): TAB, LF,
    VT, FF, CR, SP and NBSP among the code units below 256. *)
Definition isSpace (c : ascii) : bool :=
  let n := code c in
  ((9 <=? n) && (n <=? 13) || (n =? 32) || (n =? 160))%nat.

Definition isDigit (c : ascii) : bool :=
  let n := code c in ((48 <=? n) && (n <=? 57))%nat.

Definition isUpper (c : ascii) : bool :=
  let n := code c in ((65 <=? n) && (n <=? 90))%nat.

Definition isLower (c : ascii) : bool :=
  let n := code c in ((97 <=? n) && (n <=? 122))%nat.

(** The character class [[a-zA-Z0-9]]. *)
Definition isAlnum (c : ascii) : bool :=
  isLower c || isUpper c || isDigit c.

Fixpoint dropWhile (p : ascii -> bool) (s : string) : string :=
  match s with
  | EmptyString => EmptyString
  | String c r => if p c then dropWhile p r else s
  end.

Fixpoint takeWhile (p : ascii -> bool) (s : string) : string :=
  match s with
  | EmptyString => EmptyString
  | String c r => if p c then String c (takeWhile p r) else EmptyString
  end.

(** Drops a trailing run of characters satisfying [p]. *)
Fixpoint dropWhileEnd (p : ascii -> bool) (s : string) : string :=
  match s with
  | EmptyString => EmptyString
  | String c r =>
      match dropWhileEnd p r with
      | EmptyString => if p c then EmptyString else String c EmptyString
      | r' => String c r'
      end
  end.

(** [String.prototype.trim]. *)
Definition trim (s : string) : string :=
  dropWhileEnd isSpace (dropWhile isSpace s).

(** [hay.includes(needle)]. *)
Fixpoint includes (hay needle : string) : bool :=
  String.prefix needle hay ||
  match hay with
  | EmptyString => false
  | String _ r => includes r needle
  end.

(** [s.substring(0, n)]. *)
Fixpoint take (n : nat) (s : string) : string :=
  match n, s with
  | S k, String c r => String c (take k r)
  | _, _ => EmptyString
  end.

(** [s.padStart(n, '0')]. *)
Definition padStart0 (n : nat) (s : string) : string :=
  String.concat "" (List.repeat "0" (n - String.length s)%nat) +:+ s.

(** [list.join(sep)] on strings. *)
Definition join (sep : string) (l : list string) : string :=
  String.concat sep l.

(** Number.prototype.toString on an integer. *)
Definition numToString (z : Z) : string := pretty z.

(** Value of a digit in radix 16 (decimal digits included). *)
Definition hexVal (c : ascii) : option Z :=
  let n := code c in
  if isDigit c then Some (Z.of_nat n - 48)
  else if ((97 <=? n) && (n <=? 102))%nat then Some (Z.of_nat n - 87)
  else if ((65 <=? n) && (n <=? 70))%nat then Some (Z.of_nat n - 55)
  else None.

Definition digitVal (radix : Z) (c : ascii) : option Z :=
  match hexVal c with
  | Some d => if d <? radix then Some d else None
  | None => None
  end.

(** The longest prefix of digits of [s] in [radix], read left to right;
    [None] when [s] starts with no digit. *)
Fixpoint digitsFrom (radix : Z) (acc : option Z) (s : string) : option Z :=
  match s with
  | EmptyString => acc
  | String c r =>
      match digitVal radix c with
      | Some d => digitsFrom radix (Some (default 0 acc * radix + d)) r
      | None => acc
      end
  end.

(** [parseInt(s)] with no radix: leading white space, a sign, a [0x]
    prefix, then the longest run of digits.  [None] is [NaN].  The
    result is the exact integer. *)
Definition parseIntStr (s : string) : option Z :=
  let s1 := dropWhile isSpace s in
  let '(sign, s2) :=
    match s1 with
    | String "-"%char r => (-1, r)
    | String "+"%char r => (1, r)
    | _ => (1, s1)
    end in
  let '(radix, s3) :=
    match s2 with
    | String "0"%char (String "x"%char r) => (16, r)
    | String "0"%char (String "X"%char r) => (16, r)
    | _ => (10, s2)
    end in
  match digitsFrom radix None s3 with
  | Some n => Some (sign * n)
  | None => None
  end.

(** [parseInt] of a property that may be [undefined]: ToString gives
    the text "undefined", which starts with no digit. *)
Definition parseInt (o : option string) : option Z :=
  match o with
  | Some s => parseIntStr s
  | None => parseIntStr "undefined"
  end.

End JS.


(** ** The host environment

    Locale- and time-zone-dependent built-ins.  [collationKey] is the sort
    key of the default collator, [localeCompare] compares sort keys;
    [dateFullYear s] is [None] when [new Date(s)] is an invalid date and
    [getFullYear()] otherwise. *)

Class Host : Type := {
  toLowerCase : string -> string;
  toUpperCase : string -> string;
  collationKey : string -> string;
  dateFullYear : string -> option Z;
  toLocaleDateString : string -> string;
  toLocaleString : Z -> string
}.

Definition localeCompare `{Host} (a b : string) : Z :=
  match String.compare (collationKey a) (collationKey b) with
  | Lt => -1
  | Eq => 0
  | Gt => 1
  end.

(** ** Data model: the shapes the remote service answers with *)

Record Artist : Type := { artist_name : option string }.

Record Album : Type := {
  album_name : option string;
  album_type : option string;
  release_date : option string;
  album_id : option string
}.

Record Track : Type := {
  track_id : option string;
  track_name : option string;
  track_artists : option (list Artist);
  track_album : option Album;
  duration_ms : option Z;
  popularity : option Z
}.

Record PlaylistItem : Type := { item_track : option Track }.

Record Owner : Type := {
  owner_id : option string;
  owner_display_name : option string
}.

Record Playlist : Type := {
  playlist_id : option string;
  playlist_name : option string;
  playlist_owner : option Owner;
  playlist_description : option string;
  playlist_public : bool;
  playlist_tracks_total : option Z;
  playlist_followers_total : option Z
}.

(** ** The remote service and asynchronous computations *)

Module Remote.

Inductive Request : Type :=
| GetSearch (q type : string) (limit : Z)
| GetPlaylist (playlistId : string)
| GetPlaylistTracks (playlistId : string) (offset limit : Z) (fields : string)
| PostPlaylistTracks (playlistId : string) (uris : list string).

(** What the process did so far, oldest first. *)
Inductive Event : Type :=
| Call (r : Request)
| Sleep (ms : Z).

(** A thrown value: a rejected request that carries [error.response]
    (status, remote message), or any other [Error] with its message. *)
Inductive Exn : Type :=
| HttpError (status : Z) (message : option string)
| JsError (message : string).

(** [response.data], by the properties the sources read. *)
Inductive ResponseData : Type :=
| DPlaylists (items : option (list (option Playlist)))
| DTracks (items : option (list (option Track)))
| DPage (items : option (list (option PlaylistItem))) (total : option Z)
| DPlaylist (p : Playlist)
| DOther.

Inductive Response : Type :=
| Rejected (e : Exn)
| Resolved (d : ResponseData).

(** The client: the answer to the last call of a history. *)
Definition ApiClient : Type := list Event -> Response.

Inductive Outcome (A : Type) : Type :=
| Thrown (e : Exn)
| Returned (a : A).
Arguments Thrown {A} e.
Arguments Returned {A} a.

Definition Async (A : Type) : Type := list Event -> list Event * Outcome A.

Definition ret {A} (a : A) : Async A := fun h => (h, Returned a).

Definition throw {A} (e : Exn) : Async A := fun h => (h, Thrown e).

Definition bind {A B} (m : Async A) (k : A -> Async B) : Async B :=
  fun h =>
    match m h with
    | (h', Returned a) => k a h'
    | (h', Thrown e) => (h', Thrown e)
    end.

Definition tryCatch {A} (m : Async A) (handler : Exn -> Async A) : Async A :=
  fun h =>
    match m h with
    | (h', Returned a) => (h', Returned a)
    | (h', Thrown e) => handler e h'
    end.

(** [await apiClient.get(...)] / [await apiClient.post(...)]. *)
Definition request (api : ApiClient) (r : Request) : Async ResponseData :=
  fun h =>
    let h' := (h ++ [Call r])%list in
    match api h' with
    | Rejected e => (h', Thrown e)
    | Resolved d => (h', Returned d)
    end.

(** [await new Promise(resolve => setTimeout(resolve, ms))]. *)
Definition sleep (ms : Z) : Async unit :=
  fun h => ((h ++ [Sleep ms])%list, Returned tt).

(** [error.message]. *)
Definition messageOf (e : Exn) : string :=
  match e with
  | HttpError status _ =>
      "Request failed with status code " +:+ JS.numToString status
  | JsError m => m
  end.

(** The [catch] clause shared by the request wrappers of lib/spotify.js:
    [<what> failed: <status> - <message || 'Unknown error'>] when the
    error carries a response, [Network error during <doing>: <message>]
    otherwise. *)
Definition rethrow {A} (what doing : string) (e : Exn) : Async A :=
  match e with
  | HttpError status m =>
      throw (JsError (what +:+ " failed: " +:+ JS.numToString status +:+ " - "
                      +:+ JS.orElse m "Unknown error"))
  | JsError m =>
      throw (JsError ("Network error during " +:+ doing +:+ ": " +:+ m))
  end.

End Remote.

Notation "'let*' x ':=' m 'in' k" :=
  (Remote.bind m (fun x => k))
  (at level 10, x name, m at level 100, k at level 200).

(** ** JavaScript built-ins on arrays *)

Module JSArray.

Section Sort.
Context {A : Type} (comparefn : A -> A -> Z).

(** Inserts [x], which stood before every element of the sorted [l] in the
    array, as far left as the order allows. *)
Fixpoint insert (x : A) (l : list A) : list A :=
  match l with
  | [] => [x]
  | y :: r => if 0 <? comparefn x y then y :: insert x r else x :: y :: r
  end.

(** [Array.prototype.sort(comparefn)].  The language requires the sort to
    be stable and, for a consistent [comparefn], to leave the array sorted
    by it; these two fix the result, which is computed here by insertion
    from the right. *)
Fixpoint sort (l : list A) : list A :=
  match l with
  | [] => []
  | x :: r => insert x (sort r)
  end.

End Sort.

(** [l.slice(i, j)] for [0 <= i <= j]. *)
Definition slice {A} (i j : nat) (l : list A) : list A :=
  take (j - i) (drop i l).

(** [items.filter(x => x && p(x))] on an array with [null] entries. *)
Definition filterPresent {A} (p : A -> bool) (items : list (option A)) : list A :=
  omap (fun x => match x with
                 | Some a => if p a then Some a else None
                 | None => None
                 end) items.

End JSArray.

(** ** lib/spotify.js *)

Module Spotify.
Import Remote.

Section WithHost.
Context `{Host}.

(** *** Playlist resolver *)

Definition nameMatches (playlistName : string) (playlist : Playlist) : bool :=
  match playlist_name playlist with
  | Some name =>
      JS.truthyStr (Some name) &&
      String.eqb (toLowerCase name) (toLowerCase playlistName)
  | None => false
  end.

Definition ownerMatches (owner : string) (playlist : Playlist) : bool :=
  match playlist_owner playlist with
  | Some o =>
      match owner_id o with
      | Some oid =>
          JS.truthyStr (Some oid) &&
          String.eqb (toLowerCase oid) (toLowerCase owner)
      | None => false
      end
  | None => false
  end.

(** [response.data.playlists.items]; reading a property of [undefined]
    is a TypeError. *)
Definition playlistItems (d : ResponseData) : Async (list (option Playlist)) :=
  match d with
  | DPlaylists (Some items) => ret items
  | DPlaylists None =>
      throw (JsError "Cannot read properties of undefined (reading 'filter')")
  | _ => throw (JsError "Cannot read properties of undefined (reading 'items')")
  end.

(** [if (owner)], [if (albumTypeFilter)]: an optional string argument
    counts as supplied when it is truthy. *)
Definition supplied (owner : option string) : option string :=
  if JS.truthyStr owner then owner else None.

Definition searchPlaylistsByName (apiClient : ApiClient) (playlistName : string)
    (owner : option string) : Async (list Playlist) :=
  tryCatch
    (let searchQuery :=
       match supplied owner with
       | Some o => playlistName +:+ " owner:" +:+ o
       | None => playlistName
       end in
     let* data := request apiClient (GetSearch searchQuery "playlist" 50) in
     let* playlists := playlistItems data in
     let exactMatches := JSArray.filterPresent (nameMatches playlistName) playlists in
     let exactMatches :=
       match supplied owner with
       | Some o => List.filter (ownerMatches o) exactMatches
       | None => exactMatches
       end in
     ret exactMatches)
    (rethrow "Playlist search" "playlist search").

(** [s] with the literal [lit] removed from its front. *)
Fixpoint stripPrefix (lit s : string) : option string :=
  match lit, s with
  | EmptyString, _ => Some s
  | String a lit', String b s' =>
      if Ascii.eqb a b then stripPrefix lit' s' else None
  | String _ _, EmptyString => None
  end.

(** A match of [/<lit>([a-zA-Z0-9]+)/] at the front of [s]: the capture is
    the longest run of alphanumerics after the literal. *)
Definition matchHere (lit s : string) : option string :=
  match stripPrefix lit s with
  | Some rest =>
      match JS.takeWhile JS.isAlnum rest with
      | EmptyString => None
      | cap => Some cap
      end
  | None => None
  end.

(** [s.match(/<lit>([a-zA-Z0-9]+)/)?.[1]]: the capture of the leftmost
    match. *)
Fixpoint matchCapture (lit s : string) : option string :=
  match matchHere lit s with
  | Some cap => Some cap
  | None =>
      match s with
      | EmptyString => None
      | String _ r => matchCapture lit r
      end
  end.

Definition invalidUrlMessage : string :=
  "Invalid Spotify playlist URL format. Expected: https://open.spotify.com/playlist/ID or spotify:playlist:ID".

Definition extractPlaylistIdFromUrl (url : string) : Outcome string :=
  let httpMatch := matchCapture "open.spotify.com/playlist/" url in
  let uriMatch := matchCapture "spotify:playlist:" url in
  let playlistId :=
    match httpMatch with
    | Some cap => Some cap
    | None => uriMatch
    end in
  match playlistId with
  | Some cap => Returned cap
  | None => Thrown (JsError invalidUrlMessage)
  end.

(** *** Track collector *)

Definition limit : Z := 50.

Definition trackFields : string :=
  "total,items(track(id,name,artists(name),album(name,release_date),duration_ms,popularity))".

(** The request for the page that starts at [offset]. *)
Definition pageRequest (playlistId : string) (offset : Z) : Request :=
  GetPlaylistTracks playlistId offset limit trackFields.

(** [item && item.track && item.track.id], then [item.track]. *)
Definition validTrack (item : option PlaylistItem) : option Track :=
  match item with
  | Some i =>
      match item_track i with
      | Some t => if JS.truthyStr (track_id t) then Some t else None
      | None => None
      end
  | None => None
  end.

(** [offset < total], false when [total] is [undefined]. *)
Definition lessThan (offset : Z) (total : option Z) : bool :=
  match total with
  | Some t => offset <? t
  | None => false
  end.

(** The [do ... while (offset < total)] loop; [None] when [fuel] rounds
    did not reach its end. *)
Fixpoint collectPages (fuel : nat) (apiClient : ApiClient) (playlistId : string)
    (allTracks : list Track) (offset : Z) (total : option Z)
    : Async (option (list Track)) :=
  match fuel with
  | O => ret None
  | S fuel' =>
      let* data := request apiClient (pageRequest playlistId offset) in
      match data with
      | DPage (Some items) responseTotal =>
          let total := if offset =? 0 then responseTotal else total in
          let validTracks := omap validTrack items in
          let allTracks := (allTracks ++ validTracks)%list in
          let offset := offset + limit in
          if lessThan offset total
          then collectPages fuel' apiClient playlistId allTracks offset total
          else ret (Some allTracks)
      | _ => throw (JsError "Invalid track data received from Spotify API")
      end
  end.

Definition getPlaylistTracks (fuel : nat) (apiClient : ApiClient)
    (playlistId : string) : Async (option (list Track)) :=
  tryCatch
    (collectPages fuel apiClient playlistId [] 0 (Some 0))
    (rethrow "Track retrieval" "track retrieval").

(** *** Export rows *)

Record ExportRow : Type := {
  row_TrackName : string;
  row_ArtistName : string;
  row_AlbumName : string;
  row_AlbumYear : string;
  row_TrackDuration : string;
  row_TrackPopularity : string;
  row_SpotifyTrackID : string
}.

(** [artists.map(artist => artist.name).join(', ')]; [join] prints a
    missing name as the empty string. *)
Definition joinArtists (arts : list Artist) : string :=
  JS.join ", " (map (fun a => default "" (artist_name a)) arts).

(** [track.album?.<field>]. *)
Definition albumField (f : Album -> option string) (track : Track) : option string :=
  match track_album track with
  | Some a => f a
  | None => None
  end.

(** The milliseconds-to-[M:SS] step of [formatTracksForCsv]. *)
Definition formatDuration (d : option Z) : string :=
  match d with
  | Some ms =>
      if ms =? 0 then ""
      else
        let totalSeconds := ms / 1000 in
        let minutes := totalSeconds / 60 in
        let seconds := Z.rem totalSeconds 60 in
        JS.numToString minutes +:+ ":" +:+ JS.padStart0 2 (JS.numToString seconds)
  | None => ""
  end.

Definition formatTrackForCsv (track : Track) : ExportRow :=
  let trackName := JS.orElse (track_name track) "Unknown Track" in
  let artistName :=
    match track_artists track with
    | Some (a :: r) => joinArtists (a :: r)
    | _ => "Unknown Artist"
    end in
  let albumName := JS.orElse (albumField album_name track) "Unknown Album" in
  let albumYear :=
    match albumField release_date track with
    | Some d =>
        if JS.truthyStr (Some d) then
          match dateFullYear d with
          | Some y => JS.numToString y
          | None => ""
          end
        else ""
    | None => ""
    end in
  let trackDuration := formatDuration (duration_ms track) in
  let trackPopularity :=
    match popularity track with
    | Some p => toLocaleString p
    | None => ""
    end in
  let spotifyTrackId := JS.orElse (track_id track) "" in
  {| row_TrackName := trackName;
     row_ArtistName := artistName;
     row_AlbumName := albumName;
     row_AlbumYear := albumYear;
     row_TrackDuration := trackDuration;
     row_TrackPopularity := trackPopularity;
     row_SpotifyTrackID := spotifyTrackId |}.

Definition formatTracksForCsv (tracks : list Track) : list ExportRow :=
  map formatTrackForCsv tracks.

(** *** Album finder *)

Definition dquote : string := String (ascii_of_nat 34) EmptyString.

(** The filter callback of [searchTracksByNameAndArtist]. *)
Definition trackMatches (trackName artistName : string) (track : Track) : bool :=
  let trackNameMatches :=
    match track_name track with
    | Some name =>
        JS.truthyStr (Some name) &&
        JS.includes (toLowerCase name) (toLowerCase trackName)
    | None => false
    end in
  let artistMatches :=
    match track_artists track with
    | Some arts =>
        existsb (fun artist =>
                   match artist_name artist with
                   | Some name =>
                       JS.truthyStr (Some name) &&
                       JS.includes (toLowerCase name) (toLowerCase artistName)
                   | None => false
                   end) arts
    | None => false
    end in
  trackNameMatches && artistMatches.

(** [tracks.filter(track => ...)]: the callback reads [track.name], a
    TypeError on a [null] entry. *)
Fixpoint filterTracks (p : Track -> bool) (tracks : list (option Track))
    : Outcome (list Track) :=
  match tracks with
  | [] => Returned []
  | None :: _ => Thrown (JsError "Cannot read properties of null (reading 'name')")
  | Some t :: r =>
      match filterTracks p r with
      | Returned r' => Returned (if p t then t :: r' else r')
      | Thrown e => Thrown e
      end
  end.

(** The search text [track:"<name>" artist:"<artist>"]. *)
Definition trackQuery (trackName artistName : string) : string :=
  "track:" +:+ dquote +:+ trackName +:+ dquote +:+
  " artist:" +:+ dquote +:+ artistName +:+ dquote.

Definition searchTracksByNameAndArtist (apiClient : ApiClient)
    (trackName artistName : string) : Async (list Track) :=
  tryCatch
    (let searchQuery := trackQuery trackName artistName in
     let* data := request apiClient (GetSearch searchQuery "track" 50) in
     match data with
     | DTracks None => ret []
     | DTracks (Some []) => ret []
     | DTracks (Some tracks) =>
         match filterTracks (trackMatches trackName artistName) tracks with
         | Returned matchingTracks => ret matchingTracks
         | Thrown e => throw e
         end
     | _ => throw (JsError "Cannot read properties of undefined (reading 'items')")
     end)
    (rethrow "Track search" "track search").

Record AlbumInfo : Type := {
  trackName : string;
  albumName : string;
  releaseDate : string;
  releaseYear : Z;
  albumType : string;
  trackArtists : string;
  albumId : string;
  trackId : string
}.

(** [s.charAt(0).toUpperCase() + s.slice(1)]. *)
Definition capitalize (s : string) : string :=
  match s with
  | EmptyString => EmptyString
  | String c r => toUpperCase (String c EmptyString) +:+ r
  end.

Definition formatAlbum (track : Track) : AlbumInfo :=
  let albumName := JS.orElse (albumField album_name track) "Unknown Album" in
  let albumType := JS.orElse (albumField album_type track) "Unknown" in
  let '(releaseDate, releaseYear) :=
    match albumField release_date track with
    | Some d =>
        if JS.truthyStr (Some d) then
          match dateFullYear d with
          | Some y => (toLocaleDateString d, y)
          | None => ("Unknown", 0)
          end
        else ("Unknown", 0)
    | None => ("Unknown", 0)
    end in
  let trackArtists :=
    match track_artists track with
    | Some arts => joinArtists arts
    | None => "Unknown Artist"
    end in
  {| trackName := JS.orElse (track_name track) "Unknown Track";
     albumName := albumName;
     releaseDate := releaseDate;
     releaseYear := releaseYear;
     albumType := capitalize albumType;
     trackArtists := trackArtists;
     albumId := JS.orElse (albumField album_id track) "";
     trackId := JS.orElse (track_id track) "" |}.

Definition formatAlbumInformation (tracks : list Track) : list AlbumInfo :=
  map formatAlbum tracks.

(** The comparator of [sortAlbumsByReleaseYear]. *)
Definition compareAlbums (a b : AlbumInfo) : Z :=
  if negb (releaseYear a =? releaseYear b)
  then releaseYear a - releaseYear b
  else localeCompare (albumName a) (albumName b).

Definition sortAlbumsByReleaseYear (albumInfo : list AlbumInfo) : list AlbumInfo :=
  JSArray.sort compareAlbums albumInfo.

Definition typeIs (albumTypeFilter : string) (info : AlbumInfo) : bool :=
  String.eqb (toLowerCase (albumType info)) (toLowerCase albumTypeFilter).

Definition releasedBefore (beforeYear : Z) (info : AlbumInfo) : bool :=
  (0 <? releaseYear info) && (releaseYear info <? beforeYear).

Definition getTrackAlbumInformation (apiClient : ApiClient)
    (trackName artistName : string) (albumTypeFilter : option string)
    (beforeYear : JS.Value) : Async (list AlbumInfo) :=
  let* tracks := searchTracksByNameAndArtist apiClient trackName artistName in
  let albumInfo := formatAlbumInformation tracks in
  let albumInfo :=
    match supplied albumTypeFilter with
    | Some f => List.filter (typeIs f) albumInfo
    | None => albumInfo
    end in
  let albumInfo :=
    match beforeYear with
    | JS.VNum y => if JS.truthy beforeYear && JS.isNumber beforeYear
                   then List.filter (releasedBefore y) albumInfo else albumInfo
    | _ => albumInfo
    end in
  ret (sortAlbumsByReleaseYear albumInfo).

Definition findEarliestAlbumBeforeYear (apiClient : ApiClient)
    (trackName artistName : string) (beforeYear : Z) : Async (option AlbumInfo) :=
  let* albumInfo :=
    getTrackAlbumInformation apiClient trackName artistName
      (Some "album") (JS.VNum beforeYear) in
  ret (match albumInfo with
       | first :: _ => Some first
       | [] => None
       end).

(** *** Playlist writer *)

Record BatchAddResult : Type := {
  successful : nat;
  failed : nat;
  skipped : nat
}.

(** [id && typeof id === 'string' && id.trim() !== ''], with the string. *)
Definition validTrackId (id : JS.Value) : option string :=
  match id with
  | JS.VStr s =>
      if JS.truthy id && JS.isString id && negb (String.eqb (JS.trim s) "")
      then Some s else None
  | _ => None
  end.

Definition batchSize : nat := 100.

(** The [for (let i = 0; i < validTrackIds.length; i += batchSize)] loop;
    [None] when [fuel] rounds did not reach its end. *)
Fixpoint addBatches (fuel : nat) (apiClient : ApiClient) (playlistId : string)
    (validTrackIds : list string) (i successful failed : nat)
    : Async (option (nat * nat)) :=
  if (i <? length validTrackIds)%nat then
    match fuel with
    | O => ret None
    | S fuel' =>
        let batch := JSArray.slice i (i + batchSize) validTrackIds in
        let trackUris := map (fun id => "spotify:track:" +:+ id) batch in
        let* added :=
          tryCatch
            (let* _ := request apiClient (PostPlaylistTracks playlistId trackUris) in
             ret true)
            (fun batchError => ret false) in
        let successful := if added then (successful + length batch)%nat else successful in
        let failed := if added then failed else (failed + length batch)%nat in
        let* _ :=
          if (i + batchSize <? length validTrackIds)%nat then sleep 100 else ret tt in
        addBatches fuel' apiClient playlistId validTrackIds (i + batchSize)
          successful failed
    end
  else ret (Some (successful, failed)).

Definition addTracksToPlaylist (apiClient : ApiClient) (playlistId : string)
    (trackIds : list JS.Value) : Async (option BatchAddResult) :=
  tryCatch
    (let validTrackIds := omap validTrackId trackIds in
     let skippedCount := (length trackIds - length validTrackIds)%nat in
     if (length validTrackIds =? 0)%nat then
       ret (Some {| successful := 0;
                    failed := length trackIds;
                    skipped := skippedCount |})
     else
       let* counts :=
         addBatches (length validTrackIds) apiClient playlistId validTrackIds 0 0 0 in
       ret (match counts with
            | Some (successful, failed) =>
                Some {| successful := successful;
                        failed := failed;
                        skipped := skippedCount |}
            | None => None
            end))
    (fun error =>
       throw (JsError ("Failed to add tracks to playlist: " +:+ messageOf error))).

(** *** Playlist resolver: by identifier, by link, by choice *)

(** [getPlaylistById]; the body of the answer is the playlist, or is
    absent. *)
Definition getPlaylistById (apiClient : ApiClient) (playlistId : string)
    : Async Playlist :=
  tryCatch
    (let* data := request apiClient (GetPlaylist playlistId) in
     match data with
     | DPlaylist playlist => ret playlist
     | _ => throw (JsError "No playlist data received")
     end)
    (fun error =>
       match error with
       | HttpError status m =>
           if status =? 404 then
             throw (JsError
               "Playlist not found. Please check the playlist ID and ensure it is public.")
           else
             throw (JsError ("Playlist fetch failed: " +:+ JS.numToString status
                             +:+ " - " +:+ JS.orElse m "Unknown error"))
       | JsError m =>
           throw (JsError ("Network error during playlist fetch: " +:+ m))
       end).

Definition getPlaylistByUrl (apiClient : ApiClient) (url : string)
    : Async Playlist :=
  match extractPlaylistIdFromUrl url with
  | Returned playlistId => getPlaylistById apiClient playlistId
  | Thrown e => throw e
  end.

(** [promptUserSelection]; [answer] is the line the user types. *)
Definition promptUserSelection (answer : string) (playlists : list Playlist)
    : Outcome Playlist :=
  let invalid :=
    Thrown (JsError ("Invalid selection. Please enter a number between 1 and "
                     +:+ pretty (length playlists))) in
  match JS.parseIntStr (JS.trim answer) with
  | None => invalid
  | Some selection =>
      if (selection <? 1) || (Z.of_nat (length playlists) <? selection)
      then invalid
      else
        match playlists !! Z.to_nat (selection - 1) with
        | Some selectedPlaylist => Returned selectedPlaylist
        | None =>
            Thrown (JsError "Cannot read properties of undefined (reading 'owner')")
        end
  end.

(** [selectPlaylistFromList]; the user is asked only when there are
    several playlists. *)
Definition selectPlaylistFromList (answer : string) (playlists : list Playlist)
    : Outcome Playlist :=
  match playlists with
  | [] => Thrown (JsError "No playlists found with the specified name")
  | [playlist] => Returned playlist
  | _ => promptUserSelection answer playlists
  end.

(** *** Collected tracks as export rows *)

Definition getFormattedPlaylistTracks (fuel : nat) (apiClient : ApiClient)
    (playlistId : string) : Async (option (list ExportRow)) :=
  let* tracks := getPlaylistTracks fuel apiClient playlistId in
  ret (match tracks with
       | Some tracks => Some (formatTracksForCsv tracks)
       | None => None
       end).

End WithHost.
End Spotify.

(** ** lib/csvProcessor.js *)

Module CsvProcessor.
Import Spotify.

(** [record[key]] of a parsed CSV record, whose values are strings. *)
Definition field (record : gmap string string) (key : string) : JS.Value :=
  match record !! key with
  | Some s => JS.VStr s
  | None => JS.VUndefined
  end.

(** [object[key]]. *)
Definition prop (object : gmap string JS.Value) (key : string) : JS.Value :=
  default JS.VUndefined (object !! key).

Definition createEnhancedRecord (inputRecord : gmap string string)
    (albumInfo : option AlbumInfo) : gmap string JS.Value :=
  let enhancedRecord : gmap string JS.Value :=
    <["Spotify Track ID" := field inputRecord "Spotify Track ID"]>
    (<["Release Year" := field inputRecord "Release Year"]>
    (<["Artist Name" := field inputRecord "Artist Name"]>
    (<["Track Name" := field inputRecord "Track Name"]> ∅))) in
  match albumInfo with
  | Some info =>
      <["New Track Spotify ID" := JS.VStr (trackId info)]>
      (<["New Album Release Year" := JS.VStr (JS.numToString (releaseYear info))]>
      (<["New Album Name" := JS.VStr (albumName info)]>
      (<["New Track Name" := JS.VStr (trackName info)]> enhancedRecord)))
  | None =>
      <["New Track Spotify ID" := JS.VStr ""]>
      (<["New Album Release Year" := JS.VStr ""]>
      (<["New Album Name" := JS.VStr ""]>
      (<["New Track Name" := JS.VStr ""]> enhancedRecord)))
  end.

(** The result of [validateInputCSV]. *)
Inductive Validation : Type :=
| Invalid (error : string)
| Valid (recordCount invalidYears : nat).

Definition requiredColumns : list string :=
  ["Track Name"; "Artist Name"; "Release Year"; "Spotify Track ID"].

(** The callback that finds the records with an invalid release year;
    [currentYear] is [new Date().getFullYear()]. *)
Definition invalidYear (currentYear : Z) (record : gmap string string) : bool :=
  match JS.parseInt (record !! "Release Year") with
  | None => true
  | Some year => (year <? 1900) || (currentYear + 1 <? year)
  end.

Definition validateInputCSV (currentYear : Z) (records : list (gmap string string))
    : Validation :=
  match records with
  | [] => Invalid "CSV file is empty or invalid"
  | firstRecord :: _ =>
      let missingColumns :=
        List.filter (fun col => negb (bool_decide (is_Some (firstRecord !! col))))
                    requiredColumns in
      match missingColumns with
      | _ :: _ =>
          Invalid ("Missing required columns: " +:+ JS.join ", " missingColumns)
      | [] =>
          let invalidYears := List.filter (invalidYear currentYear) records in
          Valid (length records) (length invalidYears)
      end
  end.

(** The columns [writeEnhancedCSV] writes, in order. *)
Definition enhancedHeaders : list string :=
  ["Track Name"; "Artist Name"; "Release Year"; "Spotify Track ID";
   "New Track Name"; "New Album Name"; "New Album Release Year";
   "New Track Spotify ID"].

Record WriteResult : Type := {
  written_filename : string;
  written_recordCount : nat
}.

(** [writeEnhancedCSV] on the set [files] of existing paths; the writer
    creates or replaces the file at [outputPath]. *)
Definition writeEnhancedCSV (files : gset string)
    (data : list (gmap string JS.Value)) (outputPath : string)
    : gset string * Remote.Outcome WriteResult :=
  match data with
  | [] =>
      (files, Remote.Thrown (Remote.JsError
         ("Failed to write CSV file: " +:+ "No data to write to CSV")))
  | _ :: _ =>
      ({[outputPath]} ∪ files,
       Remote.Returned {| written_filename := outputPath;
                          written_recordCount := length data |})
  end.

End CsvProcessor.

(** ** The CSV batch processor *)

Module BatchProcessor.
Import Remote Spotify CsvProcessor.

Section WithHost.
Context `{Host}.

(** A field that is absent or empty. *)
Definition blank (o : option string) : Prop := o = None \/ o = Some "".

(** [isNaN(n)]. *)
Definition isNaN (n : option Z) : bool :=
  match n with
  | Some _ => false
  | None => true
  end.

Definition processTrackRecord (apiClient : ApiClient)
    (record : gmap string string) (index total : nat)
    : Async (gmap string JS.Value) :=
  tryCatch
    (let trackName := record !! "Track Name" in
     let artistName := record !! "Artist Name" in
     let releaseYear := JS.parseInt (record !! "Release Year") in
     if negb (JS.truthyStr trackName) || negb (JS.truthyStr artistName)
        || isNaN releaseYear
     then ret (createEnhancedRecord record None)
     else
       let* albumInfo :=
         findEarliestAlbumBeforeYear apiClient
           (default "" trackName) (default "" artistName) (default 0 releaseYear) in
       ret (createEnhancedRecord record albumInfo))
    (fun error => ret (createEnhancedRecord record None)).

(** The [for (let i = 0; i < records.length; i++)] loop of
    [processAllRecords]; [rest] holds [records[i]], [records[i+1]], ... *)
Fixpoint processFrom (apiClient : ApiClient) (records rest : list (gmap string string))
    (i : nat) (enhancedRecords : list (gmap string JS.Value))
    (processedCount foundCount : nat) : Async (list (gmap string JS.Value)) :=
  match rest with
  | [] => ret enhancedRecords
  | record :: rest' =>
      let* enhancedRecord := processTrackRecord apiClient record i (length records) in
      let processedCount := S processedCount in
      let enhancedRecords := (enhancedRecords ++ [enhancedRecord])%list in
      let foundCount :=
        if JS.truthy (prop enhancedRecord "New Album Name")
        then S foundCount else foundCount in
      let* _ := if (i <? length records - 1)%nat then sleep 100 else ret tt in
      processFrom apiClient records rest' (S i) enhancedRecords
        processedCount foundCount
  end.

Definition processAllRecords (apiClient : ApiClient)
    (records : list (gmap string string)) : Async (list (gmap string JS.Value)) :=
  processFrom apiClient records records 0 [] 0 0.

End WithHost.
End BatchProcessor.

(** ** The CSV export module *)

Module CsvExport.

(** The class of characters illegal in file names: less-than, greater-than,
    colon, double quote, slash, backslash, bar, question mark, star. *)
Definition isIllegal (c : ascii) : bool :=
  existsb (Nat.eqb (JS.code c)) [60; 62; 58; 34; 47; 92; 124; 63; 42]%nat.

Definition isUnderscore (c : ascii) : bool := Ascii.eqb c "_"%char.

(** [s.replace(/[...]/g, r)]: every character of the class becomes [r]. *)
Fixpoint replaceEach (p : ascii -> bool) (r : ascii) (s : string) : string :=
  match s with
  | EmptyString => EmptyString
  | String c t => String (if p c then r else c) (replaceEach p r t)
  end.

(** [s.replace(/[...]+/g, r)]: every maximal run of the class becomes one
    [r]; [inRun] tells that the previous character belonged to a run. *)
Fixpoint replaceRuns (p : ascii -> bool) (r : ascii) (inRun : bool) (s : string)
    : string :=
  match s with
  | EmptyString => EmptyString
  | String c t =>
      if p c then
        if inRun then replaceRuns p r true t
        else String r (replaceRuns p r true t)
      else String c (replaceRuns p r false t)
  end.

Definition sanitizeFilename (filename : string) : string :=
  let s := replaceEach isIllegal "_"%char filename in
  let s := replaceRuns JS.isSpace "_"%char false s in
  let s := replaceRuns isUnderscore "_"%char false s in
  let s := JS.dropWhileEnd isUnderscore (JS.dropWhile isUnderscore s) in
  JS.take 100 s.

(** [path.join(directory, filename)] for a normalized [directory] and a
    [filename] of one segment. *)
Definition pathJoin (directory filename : string) : string :=
  if String.eqb directory "." then filename
  else directory +:+ "/" +:+ filename.

(** [`${sanitizedBase}_${counter}${extension}`]. *)
Definition numbered (sanitizedBase extension : string) (counter : nat) : string :=
  sanitizedBase +:+ "_" +:+ pretty counter +:+ extension.

(** The [while (fs.existsSync(fullPath))] loop over the paths [files] that
    exist; [None] when [fuel] rounds did not reach its end. *)
Fixpoint nextFree (fuel : nat) (files : gset string)
    (sanitizedBase extension directory filename fullPath : string)
    (counter : nat) : option (string * string) :=
  if bool_decide (fullPath ∈ files) then
    match fuel with
    | O => None
    | S fuel' =>
        let filename := numbered sanitizedBase extension counter in
        let fullPath := pathJoin directory filename in
        nextFree fuel' files sanitizedBase extension directory filename fullPath
          (S counter)
    end
  else Some (filename, fullPath).

(** Every round of the loop meets one more existing path, so the paths
    that exist bound the rounds. *)
Definition generateUniqueFilename (files : gset string)
    (baseFilename extension directory : string) : option (string * string) :=
  let sanitizedBase := sanitizeFilename baseFilename in
  let filename := sanitizedBase +:+ extension in
  let fullPath := pathJoin directory filename in
  nextFree (size files) files sanitizedBase extension directory filename fullPath 1.

Record ExportResult : Type := {
  export_filename : string;
  export_fullPath : string;
  export_trackCount : nat
}.

(** [exportTracksToCSV] on the set [files] of existing paths; [resolve]
    is [path.resolve], and the writer creates the file at the joined path.
    [None] when the search for a free name ran out of fuel. *)
Definition exportTracksToCSV (resolve : string -> string) (files : gset string)
    (trackData : list Spotify.ExportRow) (playlistName directory : string)
    : option (gset string * Remote.Outcome ExportResult) :=
  let failed (message : string) :=
    Remote.Thrown (Remote.JsError ("CSV export failed: " +:+ message)) in
  match trackData with
  | [] => Some (files, failed "No track data to export")
  | _ :: _ =>
      if String.eqb playlistName "" then
        Some (files, failed "Playlist name is required for filename generation")
      else
        match generateUniqueFilename files playlistName ".csv" directory with
        | Some (filename, fullPath) =>
            Some ({[fullPath]} ∪ files,
                  Remote.Returned {| export_filename := filename;
                                     export_fullPath := resolve fullPath;
                                     export_trackCount := length trackData |})
        | None => None
        end
  end.

End CsvExport.

(** ** The playlist creator *)

Module PlaylistCreator.

Record InvalidRecord : Type := {
  invalid_index : nat;
  invalid_trackName : string;
  invalid_artistName : string;
  invalid_reason : string
}.

Record TrackIds : Type := {
  trackIds : list string;
  invalidRecords : list InvalidRecord;
  totalRecords : nat;
  validCount : nat;
  invalidCount : nat
}.

(** The [records.forEach((record, index) => ...)] of [extractTrackIds]. *)
Fixpoint collectTrackIds (rest : list (gmap string string)) (index : nat)
    (trackIds : list string) (invalidRecords : list InvalidRecord)
    : list string * list InvalidRecord :=
  match rest with
  | [] => (trackIds, invalidRecords)
  | record :: rest' =>
      let trackId := record !! "Spotify Track ID" in
      let trackName := record !! "Track Name" in
      let artistName := record !! "Artist Name" in
      if JS.truthyStr trackId
         && negb (String.eqb (JS.trim (default "" trackId)) "")
      then
        collectTrackIds rest' (S index)
          (trackIds ++ [JS.trim (default "" trackId)])%list invalidRecords
      else
        collectTrackIds rest' (S index) trackIds
          (invalidRecords ++
           [{| invalid_index := index + 1;
               invalid_trackName := JS.orElse trackName "Unknown";
               invalid_artistName := JS.orElse artistName "Unknown";
               invalid_reason := "Missing or invalid Spotify Track ID" |}])%list
  end.

Definition extractTrackIds (records : list (gmap string string)) : TrackIds :=
  let '(trackIds, invalidRecords) := collectTrackIds records 0 [] [] in
  {| trackIds := trackIds;
     invalidRecords := invalidRecords;
     totalRecords := length records;
     validCount := length trackIds;
     invalidCount := length invalidRecords |}.

End PlaylistCreator.

(** ** A host for the examples: ASCII case mapping, collation by the
    lower-cased text, ISO dates read in UTC, plain decimal numbers. *)

Module AsciiHost.

Definition lowerChar (c : ascii) : ascii :=
  if JS.isUpper c then ascii_of_nat (JS.code c + 32) else c.

Definition upperChar (c : ascii) : ascii :=
  if JS.isLower c then ascii_of_nat (JS.code c - 32) else c.

Fixpoint mapChars (f : ascii -> ascii) (s : string) : string :=
  match s with
  | EmptyString => EmptyString
  | String c t => String (f c) (mapChars f t)
  end.

(** The year of [YYYY], [YYYY-MM] or [YYYY-MM-DD]. *)
Definition isoYear (s : string) : option Z :=
  let y := JS.take 4 s in
  let rest := JS.dropWhile JS.isDigit s in
  if (String.length (JS.takeWhile JS.isDigit s) =? 4)%nat &&
     (String.eqb rest "" || String.prefix "-" rest)
  then JS.parseIntStr y else None.

#[export] Instance host : Host := {|
  toLowerCase := mapChars lowerChar;
  toUpperCase := mapChars upperChar;
  collationKey := mapChars lowerChar;
  dateFullYear := isoYear;
  toLocaleDateString := fun s => s;
  toLocaleString := fun z => pretty z
|}.

End AsciiHost.


(** ** The specification's wording of shapes and renderings *)

Module Spec.

(** A playlist identifier: a non-empty run of letters and digits. *)
Fixpoint allAlnum (s : string) : bool :=
  match s with
  | EmptyString => true
  | String c r => JS.isAlnum c && allAlnum r
  end.

Definition isId (s : string) : bool :=
  negb (String.eqb s "") && allAlnum s.

(** [s] ends with [marker] followed by an identifier. *)
Fixpoint endsWithId (marker s : string) : bool :=
  match Spotify.stripPrefix marker s with
  | Some rest => isId rest
  | None => false
  end ||
  match s with
  | EmptyString => false
  | String _ r => endsWithId marker r
  end.

(** The web-link form [.../playlist/<id>]. *)
Definition webLinkForm (s : string) : bool := endsWithId "/playlist/" s.

(** The URI form [scheme:playlist:<id>]. *)
Definition uriForm (s : string) : bool := endsWithId ":playlist:" s.

(** [lit] occurs in [s], followed by a letter or a digit. *)
Definition occurs (lit s : string) : Prop :=
  exists pre c rest, s = pre +:+ lit +:+ String c rest /\ JS.isAlnum c = true.

(** A number below 100 written with two digits. *)
Definition twoDigits (n : Z) : string :=
  String (ascii_of_nat (48 + Z.to_nat (n / 10)))
    (String (ascii_of_nat (48 + Z.to_nat (n mod 10))) EmptyString).

(** [minutes:seconds], seconds zero-padded to two digits, of a duration
    in milliseconds. *)
Definition duration (ms : Z) : string :=
  pretty (ms / 1000 / 60) +:+ ":" +:+ twoDigits ((ms / 1000) mod 60).

(** The requests and pauses that submit [batches] one after the other. *)
Fixpoint paced (playlistId : string) (batches : list (list string))
    : list Remote.Event :=
  match batches with
  | [] => []
  | [batch] => [Remote.Call (Remote.PostPlaylistTracks playlistId batch)]
  | batch :: rest =>
      Remote.Call (Remote.PostPlaylistTracks playlistId batch)
      :: Remote.Sleep 100 :: paced playlistId rest
  end.

(** The offsets of the first [n] pages. *)
Definition pageOffsets (n : nat) : list Z :=
  map (fun i => 50 * Z.of_nat i) (seq 0 n).

(** The number of pages of a playlist of [total] tracks, at least one. *)
Definition pageCount (total : Z) : nat :=
  Z.to_nat (Z.max 1 ((total + 49) / 50)).

(** [needle] is a substring of [hay]. *)
Definition contains (hay needle : string) : Prop :=
  exists pre post, hay = pre +:+ needle +:+ post.

Definition isSleep (e : Remote.Event) : bool :=
  match e with Remote.Sleep _ => true | Remote.Call _ => false end.

Definition isCall (e : Remote.Event) : bool :=
  match e with Remote.Call _ => true | Remote.Sleep _ => false end.

(** Every character of [s] satisfies [p]. *)
Fixpoint allChars (p : ascii -> bool) (s : string) : bool :=
  match s with
  | EmptyString => true
  | String c r => p c && allChars p r
  end.

(** No two underscores of [s] are adjacent; [previous] tells that an
    underscore stands right before [s]. *)
Fixpoint noDoubleUnderscore (previous : bool) (s : string) : bool :=
  match s with
  | EmptyString => true
  | String c r =>
      negb (previous && Ascii.eqb c "_"%char)
      && noDoubleUnderscore (Ascii.eqb c "_"%char) r
  end.

(** The fetch of the page of 50 entries that starts at [offset]. *)
Definition pageFetch (playlistId : string) (offset : Z) : Remote.Event :=
  Remote.Call (Remote.GetPlaylistTracks playlistId offset 50 Spotify.trackFields).

(** The columns of an input row, and the columns an enriched row adds. *)
Definition inputColumns : list string :=
  ["Track Name"; "Artist Name"; "Release Year"; "Spotify Track ID"].

Definition newColumns : list string :=
  ["New Track Name"; "New Album Name"; "New Album Release Year";
   "New Track Spotify ID"].

(** [enhanced] carries the four input columns of [record] unchanged (a
    column the row lacks is carried as undefined). *)
Definition keepsRow (record : gmap string string)
    (enhanced : gmap string JS.Value) : Prop :=
  Forall (fun col =>
            enhanced !! col
            = Some (match record !! col with
                    | Some s => JS.VStr s
                    | None => JS.VUndefined
                    end))
         inputColumns.

(** [enhanced] is [record] with a text in each of the four new columns. *)
Definition enriched (record : gmap string string)
    (enhanced : gmap string JS.Value) : Prop :=
  keepsRow record enhanced /\
  Forall (fun col => exists s, enhanced !! col = Some (JS.VStr s)) newColumns.

(** [enhanced] is [record] with each of the four new columns empty. *)
Definition emptyEnrichment (record : gmap string string)
    (enhanced : gmap string JS.Value) : Prop :=
  keepsRow record enhanced /\
  Forall (fun col => enhanced !! col = Some (JS.VStr "")) newColumns.

End Spec.

(** ** Sample data and sample clients *)

Module Examples.

Definition beatles : Artist := {| artist_name := Some "The Beatles" |}.

Definition help1965 : Track := {|
  track_id := Some "t1965";
  track_name := Some "Yesterday";
  track_artists := Some [beatles];
  track_album := Some {| album_name := Some "Help!";
                         album_type := Some "album";
                         release_date := Some "1965-08-06";
                         album_id := Some "a1965" |};
  duration_ms := Some 125000;
  popularity := Some 80
|}.

Definition hits1968 : Track := {|
  track_id := Some "t1968";
  track_name := Some "Yesterday";
  track_artists := Some [beatles];
  track_album := Some {| album_name := Some "Greatest Hits";
                         album_type := Some "compilation";
                         release_date := Some "1968-01-01";
                         album_id := Some "a1968" |};
  duration_ms := Some 125000;
  popularity := Some 70
|}.

(** Answers every search with the 1965 album and the 1968 compilation. *)
Definition beatlesClient : Remote.ApiClient :=
  fun _ => Remote.Resolved (Remote.DTracks (Some [Some help1965; Some hits1968])).

(** Rejects every request with status 500. *)
Definition failingClient : Remote.ApiClient :=
  fun _ => Remote.Rejected (Remote.HttpError 500 None).

Definition yesterdayRow (year : string) : gmap string string :=
  <["Spotify Track ID" := "abc123"]>
  (<["Release Year" := year]>
  (<["Artist Name" := "The Beatles"]>
  (<["Track Name" := "Yesterday"]> ∅))).

(** A track without duration, and one whose duration is 0 ms. *)
Definition silentTrack (d : option Z) : Track := {|
  track_id := Some "t0";
  track_name := Some "Silence";
  track_artists := Some [beatles];
  track_album := None;
  duration_ms := d;
  popularity := None
|}.

Definition namedPlaylist (name ownerId : string) : Playlist := {|
  playlist_id := Some "p";
  playlist_name := Some name;
  playlist_owner := Some {| owner_id := Some ownerId;
                            owner_display_name := None |};
  playlist_description := None;
  playlist_public := true;
  playlist_tracks_total := Some 3;
  playlist_followers_total := None
|}.

(** Answers every search with three playlists, one of which only
    contains the name searched for. *)
Definition chillClient : Remote.ApiClient :=
  fun _ => Remote.Resolved (Remote.DPlaylists (Some
    [Some (namedPlaylist "Chill" "Ann"); None;
     Some (namedPlaylist "Chill Vibes" "ann");
     Some (namedPlaylist "chill" "bob")])).

(** An album candidate known by its name and year. *)
Definition sampleAlbum (name : string) (year : Z) : Spotify.AlbumInfo := {|
  Spotify.trackName := "t";
  Spotify.albumName := name;
  Spotify.releaseDate := "d";
  Spotify.releaseYear := year;
  Spotify.albumType := "Album";
  Spotify.trackArtists := "a";
  Spotify.albumId := "i";
  Spotify.trackId := "j"
|}.

Definition itemOf (id : string) : option PlaylistItem :=
  Some {| item_track := Some {| track_id := Some id;
                                track_name := Some id;
                                track_artists := None;
                                track_album := None;
                                duration_ms := None;
                                popularity := None |} |}.

(** A playlist of 120 entries, served by the number of calls so far: one
    track per page here, with a removed entry on the second page. *)
Definition pagedClient : Remote.ApiClient :=
  fun h =>
    match length h with
    | 1%nat => Remote.Resolved (Remote.DPage (Some [itemOf "a"]) (Some 120))
    | 2%nat => Remote.Resolved (Remote.DPage (Some [None; itemOf "b"]) (Some 120))
    | _ => Remote.Resolved (Remote.DPage (Some [itemOf "c"]) (Some 120))
    end.

(** Serves a playlist of 120 entries by the offset asked for: one track
    per page, named after the offset. *)
Definition offsetClient : Remote.ApiClient :=
  fun h =>
    match last h with
    | Some (Remote.Call (Remote.GetPlaylistTracks _ offset _ _)) =>
        Remote.Resolved (Remote.DPage (Some [itemOf (pretty offset)]) (Some 120))
    | _ => Remote.Rejected (Remote.JsError "unexpected request")
    end.

(** Serves three pages by the offset and page size asked for.  Only the
    first page reports the total of 120: the second reports another total
    and the third none. *)
Definition driftingClient : Remote.ApiClient :=
  fun h =>
    match last h with
    | Some (Remote.Call (Remote.GetPlaylistTracks _ offset pageSize _)) =>
        if negb (pageSize =? 50) then
          Remote.Rejected (Remote.JsError "unexpected page size")
        else if offset =? 0 then
          Remote.Resolved (Remote.DPage (Some [itemOf "a"]) (Some 120))
        else if offset =? 50 then
          Remote.Resolved (Remote.DPage (Some [None; itemOf "b"]) (Some 7))
        else if offset =? 100 then
          Remote.Resolved (Remote.DPage (Some [itemOf "c"]) None)
        else Remote.Rejected (Remote.JsError "unexpected offset")
    | _ => Remote.Rejected (Remote.JsError "unexpected request")
    end.

End Examples.

(** * Properties *)

Import Remote.

(** Unfolds the plumbing of asynchronous computations. *)
Ltac run_async :=
  unfold tryCatch, bind, ret, throw, request, sleep, rethrow in *; simpl in *.

(** ** Playlist resolver: exact matches only *)

Section PlaylistSearch.
Context `{Host}.

Lemma filterPresent_In {A} (p : A -> bool) (items : list (option A)) (a : A) :
  In a (JSArray.filterPresent p items) -> p a = true /\ In (Some a) items.
Proof.
  unfold JSArray.filterPresent.
  rewrite <- !list_elem_of_In, list_elem_of_omap.
  intros (x & Hx & Hsome).
  destruct x as [b|]; [|discriminate].
  destruct (p b) eqn:Hp; [|discriminate].
  injection Hsome as ->. auto.
Qed.

Lemma nameMatches_exact (playlistName : string) (playlist : Playlist) :
  Spotify.nameMatches playlistName playlist = true ->
  exists name, playlist_name playlist = Some name /\
               toLowerCase name = toLowerCase playlistName.
Proof.
  unfold Spotify.nameMatches.
  destruct (playlist_name playlist) as [name|]; [|discriminate].
  intros [_ Heq]%andb_prop.
  exists name. split; [reflexivity|].
  by apply String.eqb_eq.
Qed.

Lemma ownerMatches_exact (owner : string) (playlist : Playlist) :
  Spotify.ownerMatches owner playlist = true ->
  exists o oid, playlist_owner playlist = Some o /\ owner_id o = Some oid /\
                toLowerCase oid = toLowerCase owner.
Proof.
  unfold Spotify.ownerMatches.
  destruct (playlist_owner playlist) as [o|]; [|discriminate].
  destruct (owner_id o) as [oid|] eqn:Hoid; [|discriminate].
  intros [_ Heq]%andb_prop.
  exists o, oid. repeat split; [done|].
  by apply String.eqb_eq.
Qed.

(** What a successful search returns, read off the two filters. *)
Lemma searchPlaylistsByName_result apiClient playlistName owner h h' result :
  Spotify.searchPlaylistsByName apiClient playlistName owner h
    = (h', Returned result) ->
  exists items,
    result =
      match Spotify.supplied owner with
      | Some o => List.filter (Spotify.ownerMatches o)
                    (JSArray.filterPresent (Spotify.nameMatches playlistName) items)
      | None => JSArray.filterPresent (Spotify.nameMatches playlistName) items
      end.
Proof.
  unfold Spotify.searchPlaylistsByName. run_async.
  destruct (apiClient _) as [e|d]; [destruct e; discriminate|].
  destruct d as [[items|]| | | |]; simpl; try discriminate.
  intros [= _ <-]. by exists items.
Qed.

(** C6.  Every playlist that [searchPlaylistsByName] returns has a name
    whose lower-casing equals the lower-cased query, and, when an owner
    is supplied (a non-empty string), an owner identifier whose
    lower-casing equals the lower-cased owner. *)
Theorem searchPlaylistsByName_exact apiClient playlistName owner h h' result :
  Spotify.searchPlaylistsByName apiClient playlistName owner h
    = (h', Returned result) ->
  forall playlist, In playlist result ->
    (exists name, playlist_name playlist = Some name /\
                  toLowerCase name = toLowerCase playlistName) /\
    (forall o, owner = Some o -> o <> "" ->
       exists ownerRec oid,
         playlist_owner playlist = Some ownerRec /\
         owner_id ownerRec = Some oid /\
         toLowerCase oid = toLowerCase o).
Proof.
  intros Hrun playlist Hin.
  apply searchPlaylistsByName_result in Hrun as (items & ->).
  split.
  - apply nameMatches_exact.
    destruct (Spotify.supplied owner).
    + apply filter_In in Hin as [Hin _].
      by apply filterPresent_In in Hin as [? _].
    + by apply filterPresent_In in Hin as [? _].
  - intros o -> Hne.
    assert (Spotify.supplied (Some o) = Some o) as Hsup.
    { unfold Spotify.supplied, JS.truthyStr.
      destruct (String.eqb_spec o ""); [contradiction|reflexivity]. }
    rewrite Hsup in Hin.
    apply filter_In in Hin as [_ Hown].
    by apply ownerMatches_exact.
Qed.

End PlaylistSearch.

(** ** Batch enrichment *)

Section Batch.
Context `{Host}.
Import CsvProcessor BatchProcessor.

Lemma createEnhancedRecord_keeps record albumInfo :
  prop (createEnhancedRecord record albumInfo) "Track Name"
    = field record "Track Name" /\
  prop (createEnhancedRecord record albumInfo) "Artist Name"
    = field record "Artist Name" /\
  prop (createEnhancedRecord record albumInfo) "Release Year"
    = field record "Release Year" /\
  prop (createEnhancedRecord record albumInfo) "Spotify Track ID"
    = field record "Spotify Track ID".
Proof.
  unfold prop, createEnhancedRecord.
  destruct albumInfo; repeat split;
    by rewrite ?lookup_insert_ne, ?lookup_insert_eq by done.
Qed.

Lemma blank_truthyStr (o : option string) :
  blank o <-> JS.truthyStr o = false.
Proof.
  unfold blank, JS.truthyStr. destruct o as [s|]; [|naive_solver].
  destruct (String.eqb_spec s ""); naive_solver.
Qed.

Lemma truthyStr_Some (s : string) : s <> "" -> JS.truthyStr (Some s) = true.
Proof.
  intros Hne. unfold JS.truthyStr. by destruct (String.eqb_spec s "").
Qed.

(** A rejected search request makes the whole lookup throw. *)
Lemma findEarliest_rejected apiClient tn an y h e :
  apiClient (h ++ [Call (GetSearch (Spotify.trackQuery tn an) "track" 50)])%list
    = Rejected e ->
  exists e',
    Spotify.findEarliestAlbumBeforeYear apiClient tn an y h
      = ((h ++ [Call (GetSearch (Spotify.trackQuery tn an) "track" 50)])%list,
         Thrown e').
Proof.
  intros Hrej.
  unfold Spotify.findEarliestAlbumBeforeYear, Spotify.getTrackAlbumInformation,
    Spotify.searchTracksByNameAndArtist.
  run_async. rewrite Hrej. destruct e; simpl; eauto.
Qed.

Lemma processTrackRecord_returns apiClient record index total h :
  exists h' albumInfo,
    processTrackRecord apiClient record index total h
      = (h', Returned (createEnhancedRecord record albumInfo)).
Proof.
  unfold processTrackRecord, tryCatch.
  destruct (_ || _); [by eexists _, None|].
  unfold bind.
  destruct (Spotify.findEarliestAlbumBeforeYear _ _ _ _ h) as [h' [e|a]];
    [by eexists _, None | by eexists _, a].
Qed.

(** Whatever was found, the enriched record keeps the four input columns
    and has a text in each new column. *)
Lemma createEnhancedRecord_enriched record albumInfo :
  Spec.enriched record (createEnhancedRecord record albumInfo).
Proof.
  unfold Spec.enriched, Spec.keepsRow, Spec.inputColumns, Spec.newColumns,
    createEnhancedRecord, field.
  destruct albumInfo; split; repeat constructor;
    rewrite ?lookup_insert_ne, ?lookup_insert_eq by done; eauto.
Qed.

(** Without an album, each new column is the empty text. *)
Lemma createEnhancedRecord_empty record :
  Spec.emptyEnrichment record (createEnhancedRecord record None).
Proof.
  unfold Spec.emptyEnrichment, Spec.keepsRow, Spec.inputColumns,
    Spec.newColumns, createEnhancedRecord, field.
  split; repeat constructor;
    by rewrite ?lookup_insert_ne, ?lookup_insert_eq by done.
Qed.

(** C5.  [processTrackRecord] always returns an enriched record of its
    row: the four input columns unchanged and a text in each of the four
    new columns.  A row whose track name or artist name is absent or
    empty, or whose release year does not parse, is returned with the four
    new columns empty and no request is sent.  For any other row, if the
    lookup throws, in particular if the remote service rejects the search
    request, the error is caught and the row is returned with the four new
    columns empty, after that one request. *)
Theorem processTrackRecord_one_step apiClient record index total h :
  (exists h' enhanced,
     processTrackRecord apiClient record index total h = (h', Returned enhanced) /\
     Spec.enriched record enhanced) /\
  ((record !! "Track Name" = None \/ record !! "Track Name" = Some "") \/
   (record !! "Artist Name" = None \/ record !! "Artist Name" = Some "") \/
   JS.parseInt (record !! "Release Year") = None ->
   exists enhanced,
     processTrackRecord apiClient record index total h = (h, Returned enhanced) /\
     Spec.emptyEnrichment record enhanced) /\
  (forall tn an y,
     record !! "Track Name" = Some tn -> tn <> "" ->
     record !! "Artist Name" = Some an -> an <> "" ->
     JS.parseInt (record !! "Release Year") = Some y ->
     (forall h' e,
        Spotify.findEarliestAlbumBeforeYear apiClient tn an y h = (h', Thrown e) ->
        exists enhanced,
          processTrackRecord apiClient record index total h
            = (h', Returned enhanced) /\
          Spec.emptyEnrichment record enhanced) /\
     (forall e,
        apiClient (h ++ [Call (GetSearch (Spotify.trackQuery tn an) "track" 50)])%list
          = Rejected e ->
        exists enhanced,
          processTrackRecord apiClient record index total h
            = ((h ++ [Call (GetSearch (Spotify.trackQuery tn an) "track" 50)])%list,
               Returned enhanced) /\
          Spec.emptyEnrichment record enhanced)).
Proof.
  split.
  { destruct (processTrackRecord_returns apiClient record index total h)
      as (h' & albumInfo & Hrun).
    exists h', (createEnhancedRecord record albumInfo).
    split; [exact Hrun|apply createEnhancedRecord_enriched]. }
  split.
  - intros Hbad. exists (createEnhancedRecord record None).
    split; [|apply createEnhancedRecord_empty].
    unfold processTrackRecord, tryCatch.
    assert (negb (JS.truthyStr (record !! "Track Name"))
            || negb (JS.truthyStr (record !! "Artist Name"))
            || isNaN (JS.parseInt (record !! "Release Year")) = true) as ->;
      [|reflexivity].
    destruct Hbad as [Hb|[Hb|Hb]].
    + apply blank_truthyStr in Hb. by rewrite Hb.
    + apply blank_truthyStr in Hb. rewrite Hb. by rewrite orb_true_r.
    + rewrite Hb. by rewrite orb_true_r.
  - intros tn an y Htn Htn' Han Han' Hy.
    assert (forall h' e,
        Spotify.findEarliestAlbumBeforeYear apiClient tn an y h = (h', Thrown e) ->
        processTrackRecord apiClient record index total h
          = (h', Returned (createEnhancedRecord record None))) as Hthrown.
    { intros h' e Hthrow. unfold processTrackRecord, tryCatch.
      rewrite Htn, Han, Hy, !truthyStr_Some by done. simpl.
      unfold bind. by rewrite Hthrow. }
    split.
    + intros h' e Hthrow. exists (createEnhancedRecord record None).
      split; [by apply (Hthrown h' e)|apply createEnhancedRecord_empty].
    + intros e Hrej.
      destruct (findEarliest_rejected apiClient tn an y h e Hrej) as [e' He'].
      exists (createEnhancedRecord record None).
      split; [by apply (Hthrown _ e')|apply createEnhancedRecord_empty].
Qed.

Lemma processFrom_returns apiClient records rest :
  forall i enhancedRecords processedCount foundCount h,
  exists h' out,
    processFrom apiClient records rest i enhancedRecords processedCount foundCount h
      = (h', Returned (enhancedRecords ++ out)%list) /\
    Forall2 (fun record enhanced =>
               exists albumInfo, enhanced = createEnhancedRecord record albumInfo)
            rest out.
Proof.
  induction rest as [|record rest IH]; intros i acc pc fc h; simpl.
  - exists h, []. by rewrite app_nil_r.
  - unfold bind at 1.
    destruct (processTrackRecord_returns apiClient record i (length records) h)
      as (h1 & a & ->).
    unfold bind at 1.
    set (pause := if (i <? length records - 1)%nat then sleep 100 else ret tt).
    assert (exists h2, pause h1 = (h2, Returned tt)) as [h2 ->].
    { subst pause. destruct (_ <? _)%nat; by eexists. }
    edestruct IH as (h' & out & -> & Hout).
    exists h', (createEnhancedRecord record a :: out).
    split; [by rewrite <- app_assoc|].
    constructor; eauto.
Qed.

(** C1.  Batch enrichment returns, for every list of input records, a
    list of the same length whose record at each index carries the input
    record's 'Track Name', 'Artist Name', 'Release Year' and 'Spotify
    Track ID' unchanged: no row is dropped, reordered or altered,
    whatever the rows hold and whatever the remote service answers. *)
Theorem processAllRecords_preserves_rows apiClient
    (records : list (gmap string string)) h :
  exists h' (output : list (gmap string JS.Value)),
    processAllRecords apiClient records h = (h', Returned output) /\
    length output = length records /\
    forall (i : nat) (record : gmap string string),
      records !! i = Some record ->
      exists enhanced : gmap string JS.Value,
        output !! i = Some enhanced /\
        prop enhanced "Track Name" = field record "Track Name" /\
        prop enhanced "Artist Name" = field record "Artist Name" /\
        prop enhanced "Release Year" = field record "Release Year" /\
        prop enhanced "Spotify Track ID" = field record "Spotify Track ID".
Proof.
  unfold processAllRecords.
  destruct (processFrom_returns apiClient records records 0 [] 0 0 h)
    as (h' & out & -> & Hout).
  exists h', out. split; [reflexivity|]. split.
  - symmetry. by eapply Forall2_length.
  - intros i record Hi.
    destruct (Forall2_lookup_l _ _ _ _ _ Hout Hi) as (enhanced & Ho & a & ->).
    exists (createEnhancedRecord record a). split; [done|].
    apply createEnhancedRecord_keeps.
Qed.

End Batch.

(** ** Track collector *)

Section Collector.

Lemma request_resolved apiClient r h d :
  apiClient (h ++ [Call r])%list = Resolved d ->
  request apiClient r h = ((h ++ [Call r])%list, Returned d).
Proof. intros Hd. unfold request. by rewrite Hd. Qed.

(** One round of the loop on a page that arrives with an item list. *)
Lemma collectPages_round fuel apiClient playlistId allTracks offset total h
    items responseTotal :
  apiClient (h ++ [Call (Spotify.pageRequest playlistId offset)])%list
    = Resolved (DPage (Some items) responseTotal) ->
  Spotify.collectPages (S fuel) apiClient playlistId allTracks offset total h
    = if Spotify.lessThan (offset + 50)
           (if offset =? 0 then responseTotal else total)
      then Spotify.collectPages fuel apiClient playlistId
             (allTracks ++ omap Spotify.validTrack items)%list (offset + 50)
             (if offset =? 0 then responseTotal else total)
             (h ++ [Call (Spotify.pageRequest playlistId offset)])%list
      else ((h ++ [Call (Spotify.pageRequest playlistId offset)])%list,
            Returned (Some (allTracks ++ omap Spotify.validTrack items)%list)).
Proof.
  intros Hpage. cbn [Spotify.collectPages].
  unfold bind. rewrite (request_resolved _ _ _ _ Hpage).
  change Spotify.limit with 50.
  by destruct (Spotify.lessThan _ _).
Qed.


End Collector.

(** ** Sorting *)

Section SortSpec.
Context {A : Type} (comparefn : A -> A -> Z).

Lemma insert_perm x l : Permutation (x :: l) (JSArray.insert comparefn x l).
Proof.
  induction l as [|y l IH]; simpl; [done|].
  destruct (0 <? comparefn x y); [|done].
  rewrite perm_swap. by constructor.
Qed.

Lemma sort_perm l : Permutation l (JSArray.sort comparefn l).
Proof.
  induction l as [|x l IH]; simpl; [done|].
  rewrite <- insert_perm. by constructor.
Qed.

(** A consistent comparator: any two elements are ordered one way or the
    other, and the order is transitive. *)
Hypothesis comparefn_total : forall a b, 0 < comparefn a b -> comparefn b a <= 0.
Hypothesis comparefn_trans :
  forall a b c, comparefn a b <= 0 -> comparefn b c <= 0 -> comparefn a c <= 0.

Lemma insert_sorted x l :
  StronglySorted (fun a b => comparefn a b <= 0) l ->
  StronglySorted (fun a b => comparefn a b <= 0) (JSArray.insert comparefn x l).
Proof.
  induction 1 as [|y l Hsorted IH Hall]; simpl.
  - repeat constructor.
  - destruct (Z.ltb_spec 0 (comparefn x y)) as [Hgt|Hle].
    + constructor; [done|].
      rewrite <- insert_perm. constructor; [|done].
      by apply comparefn_total.
    + constructor; [by constructor|].
      constructor; [done|].
      eapply Forall_impl; [exact Hall|].
      intros z Hyz. by eapply comparefn_trans.
Qed.

Lemma sort_sorted l :
  StronglySorted (fun a b => comparefn a b <= 0) (JSArray.sort comparefn l).
Proof.
  induction l; simpl; [constructor | by apply insert_sorted].
Qed.

(** Elements that compare equal to [x]. *)
Hypothesis comparefn_equal :
  forall x a y, comparefn x a = 0 -> 0 < comparefn a y -> comparefn x y <> 0.

Lemma insert_stable x a l :
  List.filter (fun y => comparefn x y =? 0) (JSArray.insert comparefn a l)
  = List.filter (fun y => comparefn x y =? 0) (a :: l).
Proof.
  induction l as [|y l IH]; [done|].
  cbn [JSArray.insert].
  destruct (Z.ltb_spec 0 (comparefn a y)) as [Hgt|Hle]; [|done].
  cbn [List.filter] in *. rewrite IH.
  destruct (Z.eqb_spec (comparefn x a) 0) as [Hxa|Hxa]; [|done].
  destruct (Z.eqb_spec (comparefn x y) 0) as [Hxy|Hxy]; [|done].
  by destruct (comparefn_equal x a y).
Qed.

Lemma sort_stable x l :
  List.filter (fun y => comparefn x y =? 0) (JSArray.sort comparefn l)
  = List.filter (fun y => comparefn x y =? 0) l.
Proof.
  induction l as [|a l IH]; [done|].
  cbn [JSArray.sort]. rewrite insert_stable.
  cbn [List.filter]. by rewrite IH.
Qed.

End SortSpec.

Lemma StronglySorted_lookup {A} (R : A -> A -> Prop) (l : list A) :
  StronglySorted R l ->
  forall (i j : nat) a b, (i < j)%nat -> l !! i = Some a -> l !! j = Some b -> R a b.
Proof.
  induction 1 as [|x l Hsorted IH Hall]; intros i j a b Hij Hi Hj.
  - by rewrite lookup_nil in Hi.
  - destruct j as [|j]; [lia|].
    destruct i as [|i]; simpl in *.
    + injection Hi as <-.
      rewrite Forall_forall in Hall. apply Hall.
      by eapply list_elem_of_lookup_2.
    + eapply IH; [|done..]. lia.
Qed.

(** The order of sort keys. *)
Lemma ascii_compare_trans a b c :
  Ascii.compare a b <> Gt -> Ascii.compare b c <> Gt -> Ascii.compare a c <> Gt.
Proof.
  unfold Ascii.compare. rewrite !N.compare_gt_iff. lia.
Qed.

Lemma ascii_compare_eq a b : Ascii.compare a b = Eq <-> a = b.
Proof.
  split; [apply Ascii.compare_eq_iff|].
  intros ->. unfold Ascii.compare. apply N.compare_refl.
Qed.

Lemma string_compare_refl a : String.compare a a = Eq.
Proof.
  induction a as [|x a IH]; simpl; [done|].
  by rewrite (proj2 (ascii_compare_eq x x) eq_refl).
Qed.

Lemma string_compare_trans a :
  forall b c,
    String.compare a b <> Gt -> String.compare b c <> Gt -> String.compare a c <> Gt.
Proof.
  induction a as [|x a IH]; intros [|y b] [|z c]; simpl; try done.
  destruct (Ascii.compare x y) eqn:Hxy; [| |done].
  - apply ascii_compare_eq in Hxy as ->.
    destruct (Ascii.compare y z); [apply IH|done..].
  - destruct (Ascii.compare y z) eqn:Hyz; [| |done].
    + apply ascii_compare_eq in Hyz as <-. by rewrite Hxy.
    + intros _ _.
      assert (Ascii.compare x z <> Gt) as Hxz
        by (apply (ascii_compare_trans x y z); congruence).
      destruct (Ascii.compare x z) eqn:Hc; [|done..].
      apply ascii_compare_eq in Hc as ->.
      rewrite Ascii.compare_antisym, Hyz in Hxy. discriminate.
Qed.

Section AlbumOrder.
Context `{Host}.

Lemma localeCompare_le a b :
  localeCompare a b <= 0 <-> String.compare (collationKey a) (collationKey b) <> Gt.
Proof.
  unfold localeCompare.
  destruct (String.compare _ _); split; (done || lia).
Qed.

Lemma localeCompare_zero a b :
  localeCompare a b = 0 <-> collationKey a = collationKey b.
Proof.
  unfold localeCompare. split.
  - destruct (String.compare _ _) eqn:Hc; try lia.
    intros _. by apply String.compare_eq_iff.
  - intros ->. by rewrite string_compare_refl.
Qed.

Lemma localeCompare_total a b : 0 < localeCompare a b -> localeCompare b a <= 0.
Proof.
  unfold localeCompare. rewrite (String.compare_antisym (collationKey b)).
  destruct (String.compare _ _); simpl; lia.
Qed.

Lemma localeCompare_trans a b c :
  localeCompare a b <= 0 -> localeCompare b c <= 0 -> localeCompare a c <= 0.
Proof. rewrite !localeCompare_le. apply string_compare_trans. Qed.

(** The comparator orders by release year, then by album name. *)
Lemma compareAlbums_le a b :
  Spotify.compareAlbums a b <= 0 <->
  Spotify.releaseYear a < Spotify.releaseYear b \/
  (Spotify.releaseYear a = Spotify.releaseYear b /\
   localeCompare (Spotify.albumName a) (Spotify.albumName b) <= 0).
Proof.
  unfold Spotify.compareAlbums.
  destruct (Z.eqb_spec (Spotify.releaseYear a) (Spotify.releaseYear b)); simpl; lia.
Qed.

Lemma compareAlbums_zero a b :
  Spotify.compareAlbums a b = 0 <->
  Spotify.releaseYear a = Spotify.releaseYear b /\
  collationKey (Spotify.albumName a) = collationKey (Spotify.albumName b).
Proof.
  unfold Spotify.compareAlbums. rewrite <- localeCompare_zero.
  destruct (Z.eqb_spec (Spotify.releaseYear a) (Spotify.releaseYear b)); simpl; lia.
Qed.

Lemma compareAlbums_total a b :
  0 < Spotify.compareAlbums a b -> Spotify.compareAlbums b a <= 0.
Proof.
  rewrite compareAlbums_le. unfold Spotify.compareAlbums.
  destruct (Z.eqb_spec (Spotify.releaseYear a) (Spotify.releaseYear b)); simpl.
  - intros ?%localeCompare_total. lia.
  - lia.
Qed.

Lemma compareAlbums_trans a b c :
  Spotify.compareAlbums a b <= 0 -> Spotify.compareAlbums b c <= 0 ->
  Spotify.compareAlbums a c <= 0.
Proof.
  rewrite !compareAlbums_le.
  intros [?|[? Hab]] [?|[? Hbc]]; try lia.
  right. split; [lia|]. by eapply localeCompare_trans.
Qed.

Lemma compareAlbums_equal x a y :
  Spotify.compareAlbums x a = 0 -> 0 < Spotify.compareAlbums a y ->
  Spotify.compareAlbums x y <> 0.
Proof.
  intros [Hyear Hkey]%compareAlbums_zero Hgt.
  assert (Spotify.compareAlbums x y = Spotify.compareAlbums a y) as ->; [|lia].
  unfold Spotify.compareAlbums, localeCompare. by rewrite Hyear, Hkey.
Qed.

(** C4.  [sortAlbumsByReleaseYear] returns a permutation of its input in
    which, for all indices [i < j], the release year at [i] is smaller
    than the one at [j], or the years are equal and the album name at [i]
    precedes or equals the one at [j] under the locale-aware comparison;
    elements with equal keys keep the order they had in the input. *)
Theorem sortAlbumsByReleaseYear_sorted_stable (albumInfo : list Spotify.AlbumInfo) :
  Permutation albumInfo (Spotify.sortAlbumsByReleaseYear albumInfo) /\
  (forall (i j : nat) a b,
     (i < j)%nat ->
     Spotify.sortAlbumsByReleaseYear albumInfo !! i = Some a ->
     Spotify.sortAlbumsByReleaseYear albumInfo !! j = Some b ->
     Spotify.releaseYear a < Spotify.releaseYear b \/
     (Spotify.releaseYear a = Spotify.releaseYear b /\
      localeCompare (Spotify.albumName a) (Spotify.albumName b) <= 0)) /\
  (forall x,
     List.filter (fun y => Spotify.compareAlbums x y =? 0)
                 (Spotify.sortAlbumsByReleaseYear albumInfo)
     = List.filter (fun y => Spotify.compareAlbums x y =? 0) albumInfo).
Proof.
  unfold Spotify.sortAlbumsByReleaseYear. split; [apply sort_perm|]. split.
  - intros i j a b Hij Hi Hj. apply compareAlbums_le.
    eapply (StronglySorted_lookup _ _
              (sort_sorted Spotify.compareAlbums compareAlbums_total
                 compareAlbums_trans albumInfo)); eauto.
  - intros x. apply sort_stable, compareAlbums_equal.
Qed.

End AlbumOrder.

(** ** Album finder: the earliest album before a year *)

Section Earliest.
Context `{Host}.

(** What a successful lookup returns: the head of the sorted list of the
    regular albums, filtered by year unless the year is 0. *)
Lemma findEarliest_result apiClient tn an y h h' r :
  Spotify.findEarliestAlbumBeforeYear apiClient tn an y h = (h', Returned r) ->
  exists tracks,
    r = head (Spotify.sortAlbumsByReleaseYear
                (if negb (y =? 0)
                 then List.filter (Spotify.releasedBefore y)
                        (List.filter (Spotify.typeIs "album")
                           (Spotify.formatAlbumInformation tracks))
                 else List.filter (Spotify.typeIs "album")
                        (Spotify.formatAlbumInformation tracks))).
Proof.
  unfold Spotify.findEarliestAlbumBeforeYear, Spotify.getTrackAlbumInformation.
  unfold bind at 1. unfold bind at 1.
  destruct (Spotify.searchTracksByNameAndArtist _ _ _ h) as [h1 [e|tracks]];
    [discriminate|].
  unfold ret. intros [= _ <-]. exists tracks.
  change (Spotify.supplied (Some "album")) with (Some "album").
  cbn [JS.truthy JS.isNumber]. rewrite andb_true_r.
  by destruct (Spotify.sortAlbumsByReleaseYear _).
Qed.

(** For a year other than 0 the candidate returned is a regular album
    released in a known year before the given one. *)
Lemma findEarliest_before apiClient tn an y h h' candidate :
  y <> 0 ->
  Spotify.findEarliestAlbumBeforeYear apiClient tn an y h
    = (h', Returned (Some candidate)) ->
  0 < Spotify.releaseYear candidate < y /\
  toLowerCase (Spotify.albumType candidate) = toLowerCase "album".
Proof.
  intros Hy Hrun.
  apply findEarliest_result in Hrun as (tracks & Hhead).
  destruct (Z.eqb_spec y 0) as [|_]; [done|]. cbn [negb] in Hhead.
  symmetry in Hhead. apply head_Some_elem_of in Hhead.
  unfold Spotify.sortAlbumsByReleaseYear in Hhead.
  rewrite <- (sort_perm Spotify.compareAlbums) in Hhead.
  apply list_elem_of_In, filter_In in Hhead as [Hin Hyear].
  apply filter_In in Hin as [_ Htype].
  unfold Spotify.releasedBefore in Hyear. unfold Spotify.typeIs in Htype.
  apply String.eqb_eq in Htype. split; [lia|done].
Qed.

End Earliest.

(** C3.  At the year 0 the filter by year is skipped: for the row
    "Yesterday" / "The Beatles" with year 0 and a service that knows a
    1965 album and a 1968 compilation, [findEarliestAlbumBeforeYear]
    returns the 1965 album, whose release year is not before 0. *)
Theorem findEarliestAlbumBeforeYear_year_zero :
  exists h' candidate,
    Spotify.findEarliestAlbumBeforeYear (H := AsciiHost.host)
      Examples.beatlesClient "Yesterday" "The Beatles" 0 []
      = (h', Returned (Some candidate)) /\
    Spotify.albumName candidate = "Help!" /\
    Spotify.releaseYear candidate = 1965 /\
    ~ (0 < Spotify.releaseYear candidate < 0).
Proof.
  eexists _, _. split; [vm_compute; reflexivity|].
  cbn. repeat split; lia.
Qed.

(** ** Playlist writer: the counts of [addTracksToPlaylist] *)

Section Writer.

Lemma slice_length {A} (i : nat) (l : list A) :
  length (JSArray.slice i (i + Spotify.batchSize) l)
  = Nat.min Spotify.batchSize (length l - i).
Proof.
  unfold JSArray.slice. rewrite length_take, length_drop.
  f_equal. lia.
Qed.

Lemma omap_length_le {A B} (f : A -> option B) (l : list A) :
  (length (omap f l) <= length l)%nat.
Proof.
  induction l as [|a l IH]; csimpl; [lia|].
  destruct (f a); csimpl; lia.
Qed.

(** With fuel for the remaining batches the loop ends, and the two
    counters grow by the number of remaining identifiers. *)
Lemma addBatches_counts apiClient playlistId validTrackIds fuel :
  forall i successful failed h,
    (length validTrackIds - i <= fuel * Spotify.batchSize)%nat ->
    exists h' successful' failed',
      Spotify.addBatches fuel apiClient playlistId validTrackIds i successful failed h
        = (h', Returned (Some (successful', failed'))) /\
      (successful' + failed'
       = successful + failed + (length validTrackIds - i))%nat.
Proof.
  induction fuel as [|fuel IH]; intros i s f h Hfuel.
  - exists h, s, f. simpl.
    destruct (Nat.ltb_spec i (length validTrackIds)); [lia|].
    split; [reflexivity|lia].
  - cbn [Spotify.addBatches].
    destruct (Nat.ltb_spec i (length validTrackIds)) as [Hlt|Hge];
      [|exists h, s, f; split; [reflexivity|lia]].
    pose proof (slice_length i validTrackIds) as Hlen.
    set (batch := JSArray.slice i (i + Spotify.batchSize) validTrackIds) in *.
    unfold bind at 1, tryCatch, bind at 1, request.
    set (h1 := (h ++ [Call _])%list).
    set (pause := if (i + Spotify.batchSize <? length validTrackIds)%nat
                  then sleep 100 else ret tt).
    assert (forall h0, exists h2, pause h0 = (h2, Returned tt)) as Hpause.
    { intros h0. subst pause. destruct (_ <? _)%nat; by eexists. }
    destruct (apiClient h1) as [e|d]; cbn [ret].
    + unfold bind at 1. destruct (Hpause h1) as [h2 ->].
      edestruct (IH (i + Spotify.batchSize)%nat s (f + length batch)%nat h2)
        as (h' & s' & f' & -> & Hsum); [unfold Spotify.batchSize in *; lia|].
      exists h', s', f'. split; [reflexivity|].
      unfold Spotify.batchSize in *. lia.
    + unfold bind at 1. destruct (Hpause h1) as [h2 ->].
      edestruct (IH (i + Spotify.batchSize)%nat (s + length batch)%nat f h2)
        as (h' & s' & f' & -> & Hsum); [unfold Spotify.batchSize in *; lia|].
      exists h', s', f'. split; [reflexivity|].
      unfold Spotify.batchSize in *. lia.
Qed.

(** As soon as one identifier is valid, [addTracksToPlaylist] returns
    counts that add up to the number of identifiers it was given. *)
Lemma addTracksToPlaylist_additive apiClient playlistId trackIds h :
  omap Spotify.validTrackId trackIds <> [] ->
  exists h' result,
    Spotify.addTracksToPlaylist apiClient playlistId trackIds h
      = (h', Returned (Some result)) /\
    (Spotify.successful result + Spotify.failed result + Spotify.skipped result
     = length trackIds)%nat /\
    (Spotify.skipped result
     = length trackIds - length (omap Spotify.validTrackId trackIds))%nat.
Proof.
  intros Hvalid.
  unfold Spotify.addTracksToPlaylist, tryCatch.
  set (valid := omap Spotify.validTrackId trackIds) in *.
  assert (length valid <= length trackIds)%nat as Hle
    by apply omap_length_le.
  destruct (Nat.eqb_spec (length valid) 0) as [Hz|Hnz].
  { destruct valid; [done|discriminate]. }
  unfold bind.
  destruct (addBatches_counts apiClient playlistId valid (length valid) 0 0 0 h)
    as (h' & s & f & -> & Hsum); [unfold Spotify.batchSize; lia|].
  eexists h', _. split; [reflexivity|]. simpl. lia.
Qed.

(** C2.  On a list whose identifiers are all invalid, here the single
    empty string, [addTracksToPlaylist] sends nothing and reports the
    identifier both as failed and as skipped: the three counts add up to
    2, not to the length 1 of the list. *)
Theorem addTracksToPlaylist_all_invalid apiClient playlistId h :
  exists result,
    Spotify.addTracksToPlaylist apiClient playlistId [JS.VStr ""] h
      = (h, Returned (Some result)) /\
    Spotify.successful result = 0%nat /\
    Spotify.failed result = 1%nat /\
    Spotify.skipped result = 1%nat /\
    (Spotify.successful result + Spotify.failed result + Spotify.skipped result
     <> length [JS.VStr ""])%nat.
Proof.
  eexists. split; [reflexivity|]. simpl. repeat split; lia.
Qed.

End Writer.

(** ** Export rows: the duration column *)

Section Duration.
Context `{Host}.

Lemma lookup_map {A B} (f : A -> B) (l : list A) (i : nat) :
  map f l !! i = f <$> (l !! i).
Proof.
  revert i. induction l as [|a l IH]; intros [|i]; simpl; auto.
Qed.

Lemma padStart_twoDigits (seconds : Z) :
  0 <= seconds < 60 ->
  JS.padStart0 2 (JS.numToString seconds) = Spec.twoDigits seconds.
Proof.
  intros Hrange.
  rewrite <- (Z2Nat.id seconds) by lia.
  assert (Z.to_nat seconds < 60)%nat as Hlt by lia.
  generalize dependent (Z.to_nat seconds). clear seconds Hrange.
  intros n Hlt.
  do 60 (destruct n as [|n]; [vm_compute; reflexivity|]).
  lia.
Qed.

Lemma formatDuration_positive (ms : Z) :
  0 < ms -> Spotify.formatDuration (Some ms) = Spec.duration ms.
Proof.
  intros Hms. unfold Spotify.formatDuration, Spec.duration.
  destruct (Z.eqb_spec ms 0) as [|_]; [lia|].
  assert (0 <= ms / 1000) by (apply Z.div_pos; lia).
  rewrite Z.rem_mod_nonneg by lia.
  rewrite padStart_twoDigits; [done|].
  apply Z.mod_pos_bound. lia.
Qed.

(** C10.  For every track whose duration is present and positive,
    [formatTracksForCsv] renders 'Track Duration' as minutes:seconds, the
    seconds zero-padded to two digits, with minutes = floor(ms/1000) div 60
    and seconds = floor(ms/1000) mod 60 (233000 ms gives 3:53); a track
    whose duration is absent or 0 gets an empty 'Track Duration'. *)
Theorem formatTracksForCsv_duration (tracks : list Track) :
  (forall (i : nat) track ms,
     tracks !! i = Some track -> duration_ms track = Some ms -> 0 < ms ->
     exists row,
       Spotify.formatTracksForCsv tracks !! i = Some row /\
       Spotify.row_TrackDuration row
         = pretty (ms / 1000 / 60) +:+ ":" +:+ Spec.twoDigits ((ms / 1000) mod 60)) /\
  (forall (i : nat) track,
     tracks !! i = Some track ->
     duration_ms track = None \/ duration_ms track = Some 0 ->
     exists row,
       Spotify.formatTracksForCsv tracks !! i = Some row /\
       Spotify.row_TrackDuration row = "") /\
  Spotify.formatDuration (Some 233000) = "3:53".
Proof.
  unfold Spotify.formatTracksForCsv. split; [|split].
  - intros i track ms Hi Hd Hms.
    exists (Spotify.formatTrackForCsv track).
    rewrite lookup_map, Hi. split; [done|].
    cbn. rewrite Hd. by apply formatDuration_positive.
  - intros i track Hi Hd.
    exists (Spotify.formatTrackForCsv track).
    rewrite lookup_map, Hi. split; [done|].
    cbn. by destruct Hd as [->| ->].
  - by vm_compute.
Qed.

End Duration.

(** A track of 0 ms gets an empty 'Track Duration', where minutes:seconds
    would read 0:00. *)
Lemma formatTracksForCsv_zero_duration :
  map Spotify.row_TrackDuration
      (Spotify.formatTracksForCsv (H := AsciiHost.host)
         [Examples.silentTrack (Some 0)]) = [""] /\
  Spec.duration 0 = "0:00".
Proof. split; by vm_compute. Qed.

(** ** File names of exports *)

Section Filenames.
Import CsvExport.

Lemma string_app_length (a b : string) :
  String.length (a +:+ b) = (String.length a + String.length b)%nat.
Proof. induction a as [|c a IH]; simpl; [done|]. by rewrite IH. Qed.

Lemma string_app_inv_tail (a b e : string) : a +:+ e = b +:+ e -> a = b.
Proof.
  revert b. induction a as [|c a IH]; intros [|d b] Heq; simpl in *.
  - done.
  - apply (f_equal String.length) in Heq.
    rewrite ?string_app_length in Heq. simpl in Heq.
    rewrite ?string_app_length in Heq. lia.
  - apply (f_equal String.length) in Heq.
    rewrite ?string_app_length in Heq. simpl in Heq.
    rewrite ?string_app_length in Heq. lia.
  - injection Heq as -> Heq. f_equal. by apply IH.
Qed.

Lemma numbered_inj base ext (j k : nat) :
  numbered base ext j = numbered base ext k -> j = k.
Proof.
  unfold numbered. intros Heq.
  apply (inj (String.app base)) in Heq. injection Heq as Heq.
  change (pretty j +:+ ext = pretty k +:+ ext) in Heq.
  apply string_app_inv_tail in Heq. by apply (inj pretty).
Qed.

Lemma numbered_ne_plain base ext (k : nat) :
  numbered base ext k <> base +:+ ext.
Proof.
  unfold numbered. intros Heq.
  apply (inj (String.app base)) in Heq.
  apply (f_equal String.length) in Heq.
  rewrite ?string_app_length in Heq. simpl in Heq.
  rewrite ?string_app_length in Heq. lia.
Qed.

Lemma pathJoin_inj directory a b :
  pathJoin directory a = pathJoin directory b -> a = b.
Proof.
  unfold pathJoin. destruct (String.eqb directory "."); [done|].
  intros Heq. apply (inj (String.app directory)) in Heq.
  by injection Heq.
Qed.

(** The loop ends within the rounds that the existing paths allow;
    [tried] collects the existing paths met so far. *)
Lemma nextFree_finds (files : gset string) base ext directory :
  forall (fuel : nat) filename (counter : nat) (tried : gset string),
    tried ⊆ files ->
    pathJoin directory filename ∉ tried ->
    (forall k : nat, (counter <= k)%nat ->
       (pathJoin directory (numbered base ext k) ∉ tried) /\
       numbered base ext k <> filename) ->
    (size files <= fuel + size tried)%nat ->
    exists found,
      nextFree fuel files base ext directory filename
        (pathJoin directory filename) counter
        = Some (found, pathJoin directory found) /\
      (pathJoin directory found ∉ files) /\
      (found = filename \/
       exists k : nat,
         (counter <= k)%nat /\ found = numbered base ext k /\
         pathJoin directory filename ∈ files /\
         forall j : nat, (counter <= j < k)%nat ->
           pathJoin directory (numbered base ext j) ∈ files).
Proof.
  induction fuel as [|fuel IH]; intros filename counter tried Hsub Hnew Hnext Hfuel.
  - cbn [nextFree]. case_bool_decide as Hin.
    + assert (size ({[pathJoin directory filename]} ∪ tried) <= size files)%nat
        as Hsize by (apply subseteq_size; set_solver).
      rewrite size_union, size_singleton in Hsize by set_solver. lia.
    + exists filename. auto.
  - cbn [nextFree]. case_bool_decide as Hin; [|exists filename; auto].
    destruct (IH (numbered base ext counter) (S counter)
                ({[pathJoin directory filename]} ∪ tried))
      as (found & Hrun & Hfree & Hshape).
    + set_solver.
    + destruct (Hnext counter) as [Hk Hne]; [lia|].
      apply not_elem_of_union. split; [|done].
      rewrite elem_of_singleton. by intros ?%pathJoin_inj.
    + intros k Hk. destruct (Hnext k) as [Hk1 Hk2]; [lia|]. split.
      * apply not_elem_of_union. split; [|done].
        rewrite elem_of_singleton. by intros ?%pathJoin_inj.
      * intros ?%numbered_inj. lia.
    + rewrite size_union, size_singleton by set_solver. lia.
    + exists found. split; [done|]. split; [done|]. right.
      destruct Hshape as [->|(k & Hk & -> & Hprev & Hbelow)].
      * exists counter. repeat split; [lia|done|]. intros j Hj. lia.
      * exists k. repeat split; [lia|done|].
        intros j Hj. destruct (decide (j = counter)) as [->|]; [done|].
        apply Hbelow. lia.
Qed.

Lemma generateUniqueFilename_finds (files : gset string)
    baseFilename extension directory :
  exists found,
    generateUniqueFilename files baseFilename extension directory
      = Some (found, pathJoin directory found) /\
    (pathJoin directory found ∉ files) /\
    (found = sanitizeFilename baseFilename +:+ extension \/
     exists k : nat,
       (1 <= k)%nat /\
       found = numbered (sanitizeFilename baseFilename) extension k /\
       pathJoin directory (sanitizeFilename baseFilename +:+ extension) ∈ files /\
       forall j : nat, (1 <= j < k)%nat ->
         pathJoin directory (numbered (sanitizeFilename baseFilename) extension j)
           ∈ files).
Proof.
  unfold generateUniqueFilename.
  apply (nextFree_finds files _ _ _ (size files) _ 1%nat ∅).
  - set_solver.
  - set_solver.
  - intros k _. split; [set_solver|apply numbered_ne_plain].
  - rewrite size_empty. lia.
Qed.

(** C8.  File name generation returns a name, and never one whose path
    exists.  Given a directory in which My_Playlist.csv exists, exporting
    the playlist named My Playlist yields My_Playlist_k.csv for the least
    index k from 1 on whose path does not exist: My_Playlist_1.csv when
    that one is free. *)
Theorem generateUniqueFilename_fresh (files : gset string) (directory : string) :
  (forall baseFilename extension,
     exists found,
       generateUniqueFilename files baseFilename extension directory
         = Some (found, pathJoin directory found) /\
       pathJoin directory found ∉ files) /\
  (pathJoin directory "My_Playlist.csv" ∈ files ->
   (exists k : nat,
      (1 <= k)%nat /\
      generateUniqueFilename files "My Playlist" ".csv" directory
        = Some (numbered "My_Playlist" ".csv" k,
                pathJoin directory (numbered "My_Playlist" ".csv" k)) /\
      (pathJoin directory (numbered "My_Playlist" ".csv" k) ∉ files) /\
      forall j : nat, (1 <= j < k)%nat ->
        pathJoin directory (numbered "My_Playlist" ".csv" j) ∈ files) /\
   (pathJoin directory "My_Playlist_1.csv" ∉ files ->
    generateUniqueFilename files "My Playlist" ".csv" directory
      = Some ("My_Playlist_1.csv", pathJoin directory "My_Playlist_1.csv"))).
Proof.
  split.
  - intros baseFilename extension.
    destruct (generateUniqueFilename_finds files baseFilename extension directory)
      as (found & Hrun & Hfree & _). eauto.
  - intros Hexists.
    destruct (generateUniqueFilename_finds files "My Playlist" ".csv" directory)
      as (found & Hrun & Hfree & Hshape).
    change (sanitizeFilename "My Playlist") with "My_Playlist" in Hshape.
    change ("My_Playlist" +:+ ".csv") with "My_Playlist.csv" in Hshape.
    destruct Hshape as [->|(k & Hk & -> & _ & Hbelow)]; [done|].
    split; [by exists k|].
    intros Hfirst.
    destruct (decide (k = 1%nat)) as [->|Hne]; [exact Hrun|].
    destruct Hfirst. apply (Hbelow 1%nat). lia.
Qed.

End Filenames.

(** The file My Playlist.csv does not stand in the way of the sanitized
    name: the export is named My_Playlist.csv, which carries no index. *)
Lemma generateUniqueFilename_spaced_name :
  CsvExport.generateUniqueFilename {["My Playlist.csv"]} "My Playlist" ".csv" "."
    = Some ("My_Playlist.csv", "My_Playlist.csv") /\
  "My_Playlist.csv" <> "My_Playlist_1.csv" /\
  (forall k : nat, "My_Playlist.csv" <> CsvExport.numbered "My_Playlist" ".csv" k).
Proof.
  split; [by vm_compute|]. split; [done|].
  intros k Heq. by apply (numbered_ne_plain "My_Playlist" ".csv" k).
Qed.

(** ** Playlist links *)

Section Links.
Import Spotify.

Lemma stripPrefix_Some lit s rest :
  stripPrefix lit s = Some rest <-> s = lit +:+ rest.
Proof.
  revert s. induction lit as [|a lit IH]; intros s; simpl.
  - split; [by intros [= ->]|by intros ->].
  - destruct s as [|b s]; [done|].
    destruct (Ascii.eqb_spec a b) as [->|Hne].
    + rewrite IH. split; [by intros ->|by intros [= ->]].
    + split; [done|]. intros [= -> _]. done.
Qed.

Lemma string_app_cons c (a b : string) : String c a +:+ b = String c (a +:+ b).
Proof. reflexivity. Qed.

Lemma takeWhile_dropWhile p s : s = JS.takeWhile p s +:+ JS.dropWhile p s.
Proof.
  induction s as [|c s IH]; simpl; [done|].
  destruct (p c); [|done].
  rewrite string_app_cons. by f_equal.
Qed.

Lemma takeWhile_dropWhile_stop p s : JS.takeWhile p (JS.dropWhile p s) = "".
Proof.
  induction s as [|c s IH]; simpl; [done|].
  destruct (p c) eqn:Hc; simpl; [done|by rewrite Hc].
Qed.

Lemma takeWhile_all s : Spec.allAlnum (JS.takeWhile JS.isAlnum s) = true.
Proof.
  induction s as [|c s IH]; simpl; [done|].
  destruct (JS.isAlnum c) eqn:Hc; simpl; [by rewrite Hc|done].
Qed.

Lemma takeWhile_id s : Spec.allAlnum s = true -> JS.takeWhile JS.isAlnum s = s.
Proof.
  induction s as [|c s IH]; simpl; [done|].
  intros [-> Hs]%andb_prop. by rewrite IH.
Qed.

Lemma takeWhile_nonempty p s :
  JS.takeWhile p s <> "" <-> exists c r, s = String c r /\ p c = true.
Proof.
  destruct s as [|c s]; simpl.
  - split; [done|by intros (? & ? & ? & _)].
  - destruct (p c) eqn:Hc.
    + split; [by exists c, s|done].
    + split; [done|]. intros (? & ? & [= <- _] & ?). congruence.
Qed.

Lemma allAlnum_app a b :
  Spec.allAlnum (a +:+ b) = Spec.allAlnum a && Spec.allAlnum b.
Proof.
  induction a as [|c a IH]; [done|].
  rewrite string_app_cons. simpl. by rewrite IH, andb_assoc.
Qed.

Lemma string_app_assoc (a b c : string) : (a +:+ b) +:+ c = a +:+ (b +:+ c).
Proof.
  induction a as [|x a IH]; [done|].
  rewrite !string_app_cons. by f_equal.
Qed.

Lemma string_app_nil_r (a : string) : a +:+ "" = a.
Proof.
  induction a as [|x a IH]; [done|].
  rewrite string_app_cons. by f_equal.
Qed.

(** A match of the pattern at the front of [s]. *)
Lemma matchHere_Some lit s cap :
  matchHere lit s = Some cap <->
  exists rest, s = lit +:+ rest /\ cap = JS.takeWhile JS.isAlnum rest /\ cap <> "".
Proof.
  unfold matchHere. split.
  - destruct (stripPrefix lit s) as [rest|] eqn:Hstrip; [|done].
    apply stripPrefix_Some in Hstrip as ->.
    destruct (JS.takeWhile JS.isAlnum rest) eqn:Htake; [done|].
    intros [= <-]. by exists rest.
  - intros (rest & -> & -> & Hne).
    rewrite (proj2 (stripPrefix_Some lit _ rest) eq_refl).
    by destruct (JS.takeWhile JS.isAlnum rest).
Qed.

(** The capture is the run of letters and digits that follows an
    occurrence of the literal. *)
Lemma matchCapture_Some lit s cap :
  matchCapture lit s = Some cap ->
  exists pre rest,
    s = pre +:+ lit +:+ cap +:+ rest /\
    Spec.isId cap = true /\ JS.takeWhile JS.isAlnum rest = "".
Proof.
  induction s as [|c s IH]; cbn [matchCapture].
  - destruct (matchHere lit "") as [cap'|] eqn:Hhere; [|done].
    intros [= ->]. apply matchHere_Some in Hhere as (rest & Hs & -> & Hne).
    exists "", (JS.dropWhile JS.isAlnum rest). simpl.
    rewrite <- takeWhile_dropWhile, takeWhile_dropWhile_stop.
    split; [done|]. split; [|done].
    unfold Spec.isId. rewrite takeWhile_all.
    by destruct (String.eqb_spec (JS.takeWhile JS.isAlnum rest) "").
  - destruct (matchHere lit (String c s)) as [cap'|] eqn:Hhere.
    + intros [= ->]. apply matchHere_Some in Hhere as (rest & Hs & -> & Hne).
      exists "", (JS.dropWhile JS.isAlnum rest). simpl.
      rewrite <- takeWhile_dropWhile, takeWhile_dropWhile_stop.
      split; [done|]. split; [|done].
      unfold Spec.isId. rewrite takeWhile_all.
      by destruct (String.eqb_spec (JS.takeWhile JS.isAlnum rest) "").
    + intros (pre & rest & -> & Hid & Hstop)%IH.
      by exists (String c pre), rest.
Qed.

Lemma matchCapture_None lit s :
  matchCapture lit s = None <-> ~ Spec.occurs lit s.
Proof.
  unfold Spec.occurs. split.
  - induction s as [|c s IH]; cbn [matchCapture];
      destruct (matchHere lit _) as [cap|] eqn:Hhere; try done;
      intros Hnone (pre & x & rest & Hs & Hx).
    + destruct pre; [|done]. simpl in Hs.
      assert (matchHere lit "" = Some (JS.takeWhile JS.isAlnum (String x rest)))
        as Hsome; [|congruence].
      apply matchHere_Some. exists (String x rest).
      split; [done|]. split; [done|].
      apply takeWhile_nonempty. eauto.
    + destruct pre as [|a pre]; simpl in Hs.
      * assert (matchHere lit (String c s)
                = Some (JS.takeWhile JS.isAlnum (String x rest)))
          as Hsome; [|congruence].
        apply matchHere_Some. exists (String x rest).
        split; [done|]. split; [done|].
        apply takeWhile_nonempty. eauto.
      * injection Hs as -> ->. apply (IH Hnone). eauto.
  - intros Hno. destruct (matchCapture lit s) as [cap|] eqn:Hcap; [|done].
    destruct Hno.
    apply matchCapture_Some in Hcap as (pre & rest & -> & Hid & _).
    unfold Spec.isId in Hid. apply andb_prop in Hid as [Hne Hall].
    destruct cap as [|x cap]; [done|].
    simpl in Hall. apply andb_prop in Hall as [Hx _].
    by exists pre, x, (cap +:+ rest).
Qed.

(** The capture belongs to the leftmost occurrence of the literal that a
    letter or a digit follows. *)
Lemma matchCapture_leftmost lit s cap :
  matchCapture lit s = Some cap ->
  exists pre rest,
    s = pre +:+ lit +:+ cap +:+ rest /\
    Spec.isId cap = true /\ JS.takeWhile JS.isAlnum rest = "" /\
    forall pre' c rest',
      s = pre' +:+ lit +:+ String c rest' -> JS.isAlnum c = true ->
      (String.length pre <= String.length pre')%nat.
Proof.
  induction s as [|a s IH]; cbn [matchCapture];
    destruct (matchHere lit _) as [cap'|] eqn:Hhere; try done.
  - intros [= ->]. apply matchHere_Some in Hhere as (rest & Hs & -> & Hne).
    exists "", (JS.dropWhile JS.isAlnum rest). simpl.
    rewrite <- takeWhile_dropWhile, takeWhile_dropWhile_stop.
    split; [done|]. split; [|split; [done|intros; lia]].
    unfold Spec.isId. rewrite takeWhile_all.
    by destruct (String.eqb_spec (JS.takeWhile JS.isAlnum rest) "").
  - intros [= ->]. apply matchHere_Some in Hhere as (rest & Hs & -> & Hne).
    exists "", (JS.dropWhile JS.isAlnum rest). simpl.
    rewrite <- takeWhile_dropWhile, takeWhile_dropWhile_stop.
    split; [done|]. split; [|split; [done|intros; lia]].
    unfold Spec.isId. rewrite takeWhile_all.
    by destruct (String.eqb_spec (JS.takeWhile JS.isAlnum rest) "").
  - intros (pre & rest & -> & Hid & Hstop & Hleft)%IH.
    exists (String a pre), rest. split; [done|]. split; [done|]. split; [done|].
    intros pre' c rest' Hs Hc. destruct pre' as [|b pre'].
    + simpl in Hs.
      assert (matchHere lit (String a (pre +:+ lit +:+ cap +:+ rest))
              = Some (JS.takeWhile JS.isAlnum (String c rest')))
        as Hsome; [|congruence].
      apply matchHere_Some. exists (String c rest').
      split; [done|]. split; [done|].
      apply takeWhile_nonempty. eauto.
    + rewrite string_app_cons in Hs. injection Hs as _ Hs.
      simpl. apply le_n_S. by apply (Hleft pre' c rest').
Qed.

(** A literal with a character other than a letter or a digit does not
    occur in a run of letters and digits. *)
Lemma matchCapture_alnum lit s :
  Spec.allAlnum lit = false -> Spec.allAlnum s = true -> matchCapture lit s = None.
Proof.
  intros Hlit. induction s as [|c s IH]; intros Hs; cbn [matchCapture].
  - destruct (matchHere lit "") as [cap|] eqn:Hhere; [|done].
    apply matchHere_Some in Hhere as (rest & Heq & _).
    rewrite Heq, allAlnum_app, Hlit in Hs. done.
  - destruct (matchHere lit (String c s)) as [cap|] eqn:Hhere.
    + apply matchHere_Some in Hhere as (rest & Heq & _).
      rewrite Heq, allAlnum_app, Hlit in Hs. done.
    + simpl in Hs. apply andb_prop in Hs as [_ Hs]. by apply IH.
Qed.

Lemma matchHere_id lit id :
  Spec.isId id = true -> matchHere lit (lit +:+ id) = Some id.
Proof.
  unfold Spec.isId. intros [Hne Hall]%andb_prop.
  apply matchHere_Some. exists id. rewrite takeWhile_id by done.
  repeat split. intros ->. done.
Qed.

Lemma matchCapture_here lit s cap :
  matchHere lit s = Some cap -> matchCapture lit s = Some cap.
Proof. intros Hhere. destruct s; cbn [matchCapture]; by rewrite Hhere. Qed.

Lemma matchCapture_skip lit c s :
  matchHere lit (String c s) = None ->
  matchCapture lit (String c s) = matchCapture lit s.
Proof. intros Hhere. cbn [matchCapture]. by rewrite Hhere. Qed.

Lemma extract_web_link id :
  Spec.isId id = true ->
  extractPlaylistIdFromUrl ("https://open.spotify.com/playlist/" +:+ id)
    = Returned id.
Proof.
  intros Hid. unfold extractPlaylistIdFromUrl.
  assert (matchCapture "open.spotify.com/playlist/"
            ("https://open.spotify.com/playlist/" +:+ id) = Some id) as ->; [|done].
  change ("https://open.spotify.com/playlist/" +:+ id)
    with ("https://" +:+ ("open.spotify.com/playlist/" +:+ id)).
  set (link := "open.spotify.com/playlist/" +:+ id).
  rewrite !string_app_cons. change ("" +:+ link) with link.
  do 8 (rewrite matchCapture_skip by reflexivity).
  by apply matchCapture_here, matchHere_id.
Qed.

Lemma extract_uri id :
  Spec.isId id = true ->
  extractPlaylistIdFromUrl ("spotify:playlist:" +:+ id) = Returned id.
Proof.
  intros Hid. unfold extractPlaylistIdFromUrl.
  rewrite (matchCapture_here "spotify:playlist:" _ id)
    by by apply matchHere_id.
  assert (matchCapture "open.spotify.com/playlist/" ("spotify:playlist:" +:+ id)
          = None) as ->; [|done].
  rewrite !string_app_cons. change ("" +:+ id) with id.
  rewrite !matchCapture_skip by reflexivity.
  apply matchCapture_alnum; [reflexivity|].
  unfold Spec.isId in Hid. by apply andb_prop in Hid as [_ ?].
Qed.

(** C9.  [extractPlaylistIdFromUrl] returns the identifier of
    https://open.spotify.com/playlist/<id> and of spotify:playlist:<id>.
    On any string it fails exactly when the string contains neither
    open.spotify.com/playlist/ nor spotify:playlist: followed by a letter
    or a digit.  Otherwise it returns the run of letters and digits that
    follows the leftmost such occurrence of the web-link pattern and, only
    if there is none, of the URI pattern: a string that holds both gives
    the identifier of the web link, wherever the URI stands.  The link of
    the scenario resolves to 37i9dQZF1DXcBWIGoYBM5M, and not-a-url
    fails. *)
Theorem extractPlaylistIdFromUrl_contains :
  (forall id,
     Spec.isId id = true ->
     extractPlaylistIdFromUrl ("https://open.spotify.com/playlist/" +:+ id)
       = Returned id /\
     extractPlaylistIdFromUrl ("spotify:playlist:" +:+ id) = Returned id) /\
  (forall url,
     extractPlaylistIdFromUrl url = Thrown (JsError invalidUrlMessage) <->
     ~ Spec.occurs "open.spotify.com/playlist/" url /\
     ~ Spec.occurs "spotify:playlist:" url) /\
  (forall url id,
     extractPlaylistIdFromUrl url = Returned id ->
     exists lit pre rest,
       (lit = "open.spotify.com/playlist/" \/
        (lit = "spotify:playlist:" /\
         ~ Spec.occurs "open.spotify.com/playlist/" url)) /\
       url = pre +:+ lit +:+ id +:+ rest /\
       Spec.isId id = true /\ JS.takeWhile JS.isAlnum rest = "" /\
       forall pre' c rest',
         url = pre' +:+ lit +:+ String c rest' -> JS.isAlnum c = true ->
         (String.length pre <= String.length pre')%nat) /\
  (forall url,
     Spec.occurs "open.spotify.com/playlist/" url ->
     exists pre id rest,
       extractPlaylistIdFromUrl url = Returned id /\
       url = pre +:+ "open.spotify.com/playlist/" +:+ id +:+ rest /\
       Spec.isId id = true /\ JS.takeWhile JS.isAlnum rest = "") /\
  extractPlaylistIdFromUrl
    "spotify:playlist:AAA https://open.spotify.com/playlist/BBB"
    = Returned "BBB" /\
  extractPlaylistIdFromUrl
    "https://open.spotify.com/playlist/37i9dQZF1DXcBWIGoYBM5M"
    = Returned "37i9dQZF1DXcBWIGoYBM5M" /\
  extractPlaylistIdFromUrl "not-a-url" = Thrown (JsError invalidUrlMessage).
Proof.
  split; [|split; [|split; [|split; [|split; [|split]]]]].
  - intros id Hid. split; [by apply extract_web_link|by apply extract_uri].
  - intros url. rewrite <- !matchCapture_None.
    unfold extractPlaylistIdFromUrl.
    destruct (matchCapture "open.spotify.com/playlist/" url);
      destruct (matchCapture "spotify:playlist:" url); naive_solver.
  - intros url id. unfold extractPlaylistIdFromUrl.
    destruct (matchCapture "open.spotify.com/playlist/" url) as [cap|] eqn:Hweb.
    + intros [= <-].
      apply matchCapture_leftmost in Hweb
        as (pre & rest & -> & Hid & Hstop & Hleft).
      exists "open.spotify.com/playlist/", pre, rest. auto.
    + destruct (matchCapture "spotify:playlist:" url) as [cap|] eqn:Huri; [|done].
      intros [= <-]. apply matchCapture_None in Hweb.
      apply matchCapture_leftmost in Huri
        as (pre & rest & -> & Hid & Hstop & Hleft).
      exists "spotify:playlist:", pre, rest. auto.
  - intros url Hocc. unfold extractPlaylistIdFromUrl.
    destruct (matchCapture "open.spotify.com/playlist/" url) as [cap|] eqn:Hweb.
    + apply matchCapture_Some in Hweb as (pre & rest & -> & Hid & Hstop).
      by exists pre, cap, rest.
    + by apply matchCapture_None in Hweb.
  - by vm_compute.
  - by vm_compute.
  - by vm_compute.
Qed.

End Links.

(** A text that merely contains a playlist URI, and is of neither form,
    is accepted. *)
Lemma extractPlaylistIdFromUrl_embedded :
  Spec.webLinkForm "see spotify:playlist:abc now" = false /\
  Spec.uriForm "see spotify:playlist:abc now" = false /\
  Spotify.extractPlaylistIdFromUrl "see spotify:playlist:abc now" = Returned "abc".
Proof. repeat split; by vm_compute. Qed.

(** ** The theorems at sample inputs *)

Section Samples.
#[local] Existing Instance AsciiHost.host.

(** A search for "chill" owned by "ann" keeps the playlist "Chill" of
    "Ann" only: "Chill Vibes" merely contains the name, and the other
    "chill" belongs to someone else. *)
Lemma searchPlaylistsByName_exact_witness :
  Spotify.searchPlaylistsByName (H := AsciiHost.host)
      Examples.chillClient "chill" (Some "ann") []
    = ([Call (GetSearch "chill owner:ann" "playlist" 50)],
       Returned [Examples.namedPlaylist "Chill" "Ann"]) /\
  ((exists name,
      playlist_name (Examples.namedPlaylist "Chill" "Ann") = Some name /\
      toLowerCase name = toLowerCase "chill") /\
   (forall o, Some "ann" = Some o -> o <> "" ->
      exists ownerRec oid,
        playlist_owner (Examples.namedPlaylist "Chill" "Ann") = Some ownerRec /\
        owner_id ownerRec = Some oid /\
        toLowerCase oid = toLowerCase o)).
Proof.
  assert (Spotify.searchPlaylistsByName (H := AsciiHost.host)
            Examples.chillClient "chill" (Some "ann") []
          = ([Call (GetSearch "chill owner:ann" "playlist" 50)],
             Returned [Examples.namedPlaylist "Chill" "Ann"])) as Hrun
    by (vm_compute; reflexivity).
  split; [exact Hrun|].
  apply (searchPlaylistsByName_exact (H := AsciiHost.host)
           Examples.chillClient "chill" (Some "ann") [] _ _ Hrun).
  left. reflexivity.
Defined.


(** A row whose year does not parse is returned at once, and a row whose
    search is rejected is returned after that one request; both with the
    four new columns empty. *)
Lemma processTrackRecord_one_step_witness :
  (JS.parseInt (Examples.yesterdayRow "unknown" !! "Release Year") = None /\
   exists enhanced,
     BatchProcessor.processTrackRecord (H := AsciiHost.host)
         Examples.beatlesClient (Examples.yesterdayRow "unknown") 0 1 []
       = ([], Returned enhanced) /\
     Spec.emptyEnrichment (Examples.yesterdayRow "unknown") enhanced) /\
  (Examples.failingClient
     [Call (GetSearch (Spotify.trackQuery "Yesterday" "The Beatles") "track" 50)]
     = Rejected (HttpError 500 None) /\
   exists enhanced,
     BatchProcessor.processTrackRecord (H := AsciiHost.host)
         Examples.failingClient (Examples.yesterdayRow "1970") 0 1 []
       = ([Call (GetSearch (Spotify.trackQuery "Yesterday" "The Beatles")
                   "track" 50)],
          Returned enhanced) /\
     Spec.emptyEnrichment (Examples.yesterdayRow "1970") enhanced).
Proof.
  split.
  - split; [by vm_compute|].
    apply (proj1 (proj2 (processTrackRecord_one_step (H := AsciiHost.host)
             Examples.beatlesClient (Examples.yesterdayRow "unknown") 0 1 []))).
    right. right. vm_compute. reflexivity.
  - split; [reflexivity|].
    apply (proj2 (proj2 (proj2 (processTrackRecord_one_step (H := AsciiHost.host)
             Examples.failingClient (Examples.yesterdayRow "1970") 0 1 []))
             "Yesterday" "The Beatles" 1970
             ltac:(vm_compute; reflexivity) ltac:(discriminate)
             ltac:(vm_compute; reflexivity) ltac:(discriminate)
             ltac:(vm_compute; reflexivity))
           (HttpError 500 None)).
    reflexivity.
Defined.

(** Next to My_Playlist.csv the export is named My_Playlist_1.csv. *)
Lemma generateUniqueFilename_fresh_witness :
  CsvExport.pathJoin "." "My_Playlist.csv" ∈ ({["My_Playlist.csv"]} : gset string) /\
  CsvExport.generateUniqueFilename {["My_Playlist.csv"]} "My Playlist" ".csv" "."
    = Some ("My_Playlist_1.csv", CsvExport.pathJoin "." "My_Playlist_1.csv").
Proof.
  assert (CsvExport.pathJoin "." "My_Playlist.csv"
          ∈ ({["My_Playlist.csv"]} : gset string)) as Hin
    by (apply elem_of_singleton; reflexivity).
  split; [exact Hin|].
  apply (proj2 (proj2 (generateUniqueFilename_fresh {["My_Playlist.csv"]} ".") Hin)).
  intros Habs. apply elem_of_singleton in Habs. discriminate Habs.
Defined.

(** The scenario of the specification: the row "Yesterday" / "The
    Beatles" / 1970 is enriched with the 1965 album, the compilation of
    1968 being left out by the type filter; a row whose year does not
    parse keeps its four fields and gets empty new ones. *)
Example processAllRecords_scenario :
  exists h output,
    BatchProcessor.processAllRecords Examples.beatlesClient
      [Examples.yesterdayRow "1970"; Examples.yesterdayRow "unknown"] []
    = (h, Returned output) /\
    h = [Call (GetSearch (Spotify.trackQuery "Yesterday" "The Beatles") "track" 50);
         Sleep 100] /\
    map (fun r => CsvProcessor.prop r "New Album Release Year") output
    = [JS.VStr "1965"; JS.VStr ""] /\
    map (fun r => CsvProcessor.prop r "New Album Name") output
    = [JS.VStr "Help!"; JS.VStr ""] /\
    map (fun r => CsvProcessor.prop r "Release Year") output
    = [JS.VStr "1970"; JS.VStr "unknown"].
Proof.
  assert ((BatchProcessor.processAllRecords Examples.beatlesClient
             [Examples.yesterdayRow "1970"; Examples.yesterdayRow "unknown"] []).1
          = [Call (GetSearch (Spotify.trackQuery "Yesterday" "The Beatles")
                     "track" 50); Sleep 100]) as Hhistory
    by (vm_compute; reflexivity).
  assert (match (BatchProcessor.processAllRecords Examples.beatlesClient
                   [Examples.yesterdayRow "1970"; Examples.yesterdayRow "unknown"]
                   []).2 with
          | Returned output =>
              Some (map (fun r => CsvProcessor.prop r "New Album Release Year") output,
                    map (fun r => CsvProcessor.prop r "New Album Name") output,
                    map (fun r => CsvProcessor.prop r "Release Year") output)
          | Thrown _ => None
          end
          = Some ([JS.VStr "1965"; JS.VStr ""], [JS.VStr "Help!"; JS.VStr ""],
                  [JS.VStr "1970"; JS.VStr "unknown"])) as Hcolumns
    by (vm_compute; reflexivity).
  destruct (BatchProcessor.processAllRecords _ _ _) as [h [e|output]];
    [discriminate Hcolumns|].
  injection Hcolumns as Hyear Hname Hkept. simpl in Hhistory.
  exists h, output. by repeat split.
Qed.

(** Years first, names next, and the two spellings of "help!" stay in the
    order of the input. *)
Example sortAlbumsByReleaseYear_sample :
  map (fun a => (Spotify.releaseYear a, Spotify.albumName a))
      (Spotify.sortAlbumsByReleaseYear
         [Examples.sampleAlbum "Revolver" 1966; Examples.sampleAlbum "help!" 1965;
          Examples.sampleAlbum "A Hard Day's Night" 1964; Examples.sampleAlbum "Help!" 1965;
          Examples.sampleAlbum "Beatles VI" 1965])
  = [(1964, "A Hard Day's Night"); (1965, "Beatles VI"); (1965, "help!");
     (1965, "Help!"); (1966, "Revolver")].
Proof. by vm_compute. Qed.

Example parseInt_samples :
  JS.parseInt (Some "1970") = Some 1970 /\
  JS.parseInt (Some " 19x5") = Some 19 /\
  JS.parseInt (Some "0") = Some 0 /\
  JS.parseInt (Some "") = None /\
  JS.parseInt (Some "year") = None /\
  JS.parseInt None = None.
Proof. repeat split; by vm_compute. Qed.

Example sanitizeFilename_samples :
  CsvExport.sanitizeFilename "My Playlist" = "My_Playlist" /\
  CsvExport.sanitizeFilename "  AC/DC: best?  of  " = "AC_DC_best_of" /\
  CsvExport.sanitizeFilename "__a__" = "a".
Proof. repeat split; by vm_compute. Qed.

(** With one valid identifier among invalid ones the counts add up. *)
Example addTracksToPlaylist_sample :
  exists h result,
    Spotify.addTracksToPlaylist Examples.failingClient "pl"
      [JS.VStr "abc"; JS.VStr ""; JS.VNull; JS.VNum 7; JS.VStr "  "] []
    = (h, Returned (Some result)) /\
    h = [Call (PostPlaylistTracks "pl" ["spotify:track:abc"])] /\
    Spotify.successful result = 0%nat /\
    Spotify.failed result = 1%nat /\
    Spotify.skipped result = 4%nat.
Proof. eexists _, _. split; [by vm_compute|]. by vm_compute. Qed.

(** The two forms of the specification hold of the links they describe. *)
Example link_forms_samples :
  Spec.webLinkForm "https://open.spotify.com/playlist/37i9dQZF1DXcBWIGoYBM5M" = true /\
  Spec.uriForm "spotify:playlist:37i9dQZF1DXcBWIGoYBM5M" = true /\
  Spec.webLinkForm "not-a-url" = false /\
  Spec.uriForm "not-a-url" = false.
Proof. repeat split; by vm_compute. Qed.

(** The theorems on rows, on the album order and on durations, at the
    sample data. *)
Lemma processAllRecords_preserves_rows_witness :
  exists h' (output : list (gmap string JS.Value)),
    BatchProcessor.processAllRecords Examples.failingClient
      [Examples.yesterdayRow "1970"; Examples.yesterdayRow "unknown"] []
    = (h', Returned output) /\
    length output
    = length [Examples.yesterdayRow "1970"; Examples.yesterdayRow "unknown"] /\
    forall (i : nat) (record : gmap string string),
      [Examples.yesterdayRow "1970"; Examples.yesterdayRow "unknown"] !! i
        = Some record ->
      exists enhanced : gmap string JS.Value,
        output !! i = Some enhanced /\
        CsvProcessor.prop enhanced "Track Name"
          = CsvProcessor.field record "Track Name" /\
        CsvProcessor.prop enhanced "Artist Name"
          = CsvProcessor.field record "Artist Name" /\
        CsvProcessor.prop enhanced "Release Year"
          = CsvProcessor.field record "Release Year" /\
        CsvProcessor.prop enhanced "Spotify Track ID"
          = CsvProcessor.field record "Spotify Track ID".
Proof.
  apply (processAllRecords_preserves_rows Examples.failingClient
           [Examples.yesterdayRow "1970"; Examples.yesterdayRow "unknown"] []).
Defined.

Lemma sortAlbumsByReleaseYear_sorted_stable_witness :
  Permutation
    [Examples.sampleAlbum "Revolver" 1966; Examples.sampleAlbum "Help!" 1965]
    (Spotify.sortAlbumsByReleaseYear
       [Examples.sampleAlbum "Revolver" 1966; Examples.sampleAlbum "Help!" 1965]) /\
  Spotify.sortAlbumsByReleaseYear
    [Examples.sampleAlbum "Revolver" 1966; Examples.sampleAlbum "Help!" 1965]
  = [Examples.sampleAlbum "Help!" 1965; Examples.sampleAlbum "Revolver" 1966].
Proof.
  split; [|reflexivity].
  apply (proj1 (sortAlbumsByReleaseYear_sorted_stable
                  [Examples.sampleAlbum "Revolver" 1966;
                   Examples.sampleAlbum "Help!" 1965])).
Defined.

Lemma formatTracksForCsv_duration_witness :
  exists row,
    Spotify.formatTracksForCsv [Examples.help1965] !! 0%nat = Some row /\
    Spotify.row_TrackDuration row
    = pretty (125000 / 1000 / 60) +:+ ":" +:+ Spec.twoDigits ((125000 / 1000) mod 60).
Proof.
  apply (proj1 (formatTracksForCsv_duration [Examples.help1965])
           0%nat Examples.help1965 125000);
    [reflexivity | reflexivity | reflexivity].
Defined.

End Samples.

(** * Further properties *)

(** ** Resolving a playlist by link or identifier *)

Section Resolver.
Import Spotify.

Lemma getPlaylistById_history apiClient playlistId h :
  exists outcome,
    getPlaylistById apiClient playlistId h
      = ((h ++ [Call (GetPlaylist playlistId)])%list, outcome) /\
    (forall m,
       apiClient (h ++ [Call (GetPlaylist playlistId)])%list
         = Rejected (HttpError 404 m) ->
       outcome = Thrown (JsError
         "Playlist not found. Please check the playlist ID and ensure it is public.")) /\
    (forall playlist,
       outcome = Returned playlist <->
       apiClient (h ++ [Call (GetPlaylist playlistId)])%list
         = Resolved (DPlaylist playlist)).
Proof.
  unfold getPlaylistById. run_async.
  destruct (apiClient _) as [[status m|m]|d].
  - destruct (Z.eqb_spec status 404) as [->|Hne]; simpl.
    + eexists. split; [reflexivity|]. split; [done|]. by split.
    + eexists. split; [reflexivity|]. split; [|by split].
      intros m' [= ? _]. done.
  - eexists. split; [reflexivity|]. split; [done|]. by split.
  - destruct d; simpl; eexists; (split; [reflexivity|]); split; try done;
      intros playlist; split; intros [= ->]; done.
Qed.

(** A link in which neither pattern occurs fails before any request is
    sent.  A link that yields an identifier costs exactly one request,
    for that identifier; the playlist returned is the one the service
    answered with, and a 404 becomes the not-found error. *)
Theorem getPlaylistByUrl_requests apiClient url h :
  (~ Spec.occurs "open.spotify.com/playlist/" url ->
   ~ Spec.occurs "spotify:playlist:" url ->
   getPlaylistByUrl apiClient url h = (h, Thrown (JsError invalidUrlMessage))) /\
  (forall playlistId,
     extractPlaylistIdFromUrl url = Returned playlistId ->
     exists outcome,
       getPlaylistByUrl apiClient url h
         = ((h ++ [Call (GetPlaylist playlistId)])%list, outcome) /\
       (forall m,
          apiClient (h ++ [Call (GetPlaylist playlistId)])%list
            = Rejected (HttpError 404 m) ->
          outcome = Thrown (JsError
            "Playlist not found. Please check the playlist ID and ensure it is public.")) /\
       (forall playlist,
          outcome = Returned playlist <->
          apiClient (h ++ [Call (GetPlaylist playlistId)])%list
            = Resolved (DPlaylist playlist))).
Proof.
  split.
  - intros Hweb%matchCapture_None Huri%matchCapture_None.
    unfold getPlaylistByUrl, extractPlaylistIdFromUrl.
    by rewrite Hweb, Huri.
  - intros playlistId Hid. unfold getPlaylistByUrl. rewrite Hid.
    apply getPlaylistById_history.
Qed.

(** A playlist is only ever chosen from the list: none from an empty
    list, the single one without asking, and among several the one whose
    1-based number the answer starts with; an answer that is no number,
    or a number out of range, is refused. *)
Theorem selectPlaylistFromList_choice answer (playlists : list Playlist) :
  (forall playlist,
     selectPlaylistFromList answer playlists = Returned playlist ->
     In playlist playlists) /\
  (playlists = [] ->
   selectPlaylistFromList answer playlists
     = Thrown (JsError "No playlists found with the specified name")) /\
  (forall playlist,
     playlists = [playlist] ->
     selectPlaylistFromList answer playlists = Returned playlist) /\
  ((2 <= length playlists)%nat ->
   forall playlist,
     selectPlaylistFromList answer playlists = Returned playlist <->
     exists selection,
       JS.parseIntStr (JS.trim answer) = Some selection /\
       1 <= selection <= Z.of_nat (length playlists) /\
       playlists !! Z.to_nat (selection - 1) = Some playlist).
Proof.
  assert (forall playlist,
            promptUserSelection answer playlists = Returned playlist <->
            exists selection,
              JS.parseIntStr (JS.trim answer) = Some selection /\
              1 <= selection <= Z.of_nat (length playlists) /\
              playlists !! Z.to_nat (selection - 1) = Some playlist) as Hprompt.
  { intros playlist. unfold promptUserSelection.
    destruct (JS.parseIntStr (JS.trim answer)) as [selection|];
      [|split; [done|by intros (? & ? & _)]].
    destruct (Z.ltb_spec selection 1); simpl;
      [split; [done|intros (? & [= <-] & ? & _); lia]|].
    destruct (Z.ltb_spec (Z.of_nat (length playlists)) selection); simpl;
      [split; [done|intros (? & [= <-] & ? & _); lia]|].
    destruct (playlists !! Z.to_nat (selection - 1)) as [p|] eqn:Hp.
    - split.
      + intros [= <-]. exists selection. split; [done|]. split; [lia|done].
      + intros (? & [= <-] & _ & Hq). congruence.
    - split; [done|]. intros (? & [= <-] & _ & Hq). congruence. }
  split; [|split; [|split]].
  - intros playlist. destruct playlists as [|p [|q rest]]; simpl.
    + done.
    + intros [= ->]. by left.
    + intros Hsel. apply Hprompt in Hsel as (selection & _ & _ & Hp).
      change (In playlist (p :: q :: rest)).
      apply list_elem_of_In. by eapply list_elem_of_lookup_2.
  - by intros ->.
  - by intros playlist ->.
  - intros Hlen playlist.
    destruct playlists as [|p [|q rest]]; simpl in Hlen; [lia..|].
    apply Hprompt.
Qed.

End Resolver.

(** ** Validating, enriching and writing a CSV *)

Section CsvPipeline.
Context `{Host}.
Import CsvProcessor BatchProcessor.

Lemma missing_columns_nil (firstRecord : gmap string string) :
  List.filter (fun col => negb (bool_decide (is_Some (firstRecord !! col))))
              requiredColumns = [] <->
  Forall (fun col => is_Some (firstRecord !! col)) requiredColumns.
Proof.
  induction requiredColumns as [|col cols IH]; simpl.
  - split; [constructor|done].
  - rewrite Forall_cons. case_bool_decide; simpl; [|split; [done|tauto]].
    rewrite IH. tauto.
Qed.

Lemma filter_length_le {A} (p : A -> bool) (l : list A) :
  (length (List.filter p l) <= length l)%nat.
Proof. induction l as [|a l IH]; simpl; [lia|]. destruct (p a); simpl; lia. Qed.

(** [validateInputCSV] accepts exactly the non-empty lists whose first
    record has the four required columns: the release years, however
    wrong, are only counted.  When it accepts, the count of records is
    the length of the list and bounds the count of invalid years. *)
Theorem validateInputCSV_first_record currentYear
    (records : list (gmap string string)) :
  (forall recordCount invalidYears,
     validateInputCSV currentYear records = Valid recordCount invalidYears ->
     recordCount = length records /\
     (invalidYears <= recordCount)%nat /\
     exists firstRecord rest,
       records = firstRecord :: rest /\
       Forall (fun col => is_Some (firstRecord !! col)) requiredColumns) /\
  (forall firstRecord rest,
     records = firstRecord :: rest ->
     Forall (fun col => is_Some (firstRecord !! col)) requiredColumns ->
     exists invalidYears,
       validateInputCSV currentYear records = Valid (length records) invalidYears) /\
  (forall firstRecord rest col,
     records = firstRecord :: rest ->
     In col requiredColumns -> firstRecord !! col = None ->
     exists error, validateInputCSV currentYear records = Invalid error).
Proof.
  unfold validateInputCSV. split; [|split].
  - intros recordCount invalidYears.
    destruct records as [|firstRecord rest]; [done|].
    destruct (List.filter _ requiredColumns) eqn:Hmissing; [|done].
    intros [= <- <-]. split; [done|].
    split; [apply (filter_length_le _ (firstRecord :: rest))|].
    exists firstRecord, rest. split; [done|]. by apply missing_columns_nil.
  - intros firstRecord rest -> Hcols.
    apply missing_columns_nil in Hcols. rewrite Hcols. by eexists.
  - intros firstRecord rest col -> Hin Hnone.
    destruct (List.filter _ requiredColumns) eqn:Hmissing; [|by eexists].
    apply missing_columns_nil in Hmissing.
    rewrite Forall_forall in Hmissing.
    apply list_elem_of_In, Hmissing in Hin. rewrite Hnone in Hin.
    by destruct Hin.
Qed.

Lemma createEnhancedRecord_dom record albumInfo :
  dom (createEnhancedRecord record albumInfo)
  = (list_to_set enhancedHeaders : gset string).
Proof.
  unfold createEnhancedRecord.
  destruct albumInfo; rewrite !dom_insert_L, dom_empty_L; simpl; set_solver.
Qed.

(** A CSV that passes validation is enriched and written in full: the
    batch returns, the writer does not refuse its output, the count it
    reports is the count of validated records, and every record it is
    given has exactly the eight columns of the header. *)
Theorem validated_csv_is_written currentYear apiClient
    (records : list (gmap string string)) h (files : gset string)
    outputPath recordCount invalidYears :
  validateInputCSV currentYear records = Valid recordCount invalidYears ->
  exists h' (output : list (gmap string JS.Value)),
    processAllRecords apiClient records h = (h', Returned output) /\
    writeEnhancedCSV files output outputPath
      = ({[outputPath]} ∪ files,
         Returned {| written_filename := outputPath;
                     written_recordCount := recordCount |}) /\
    Forall (fun enhanced : gmap string JS.Value =>
              dom enhanced = (list_to_set enhancedHeaders : gset string))
           output.
Proof.
  intros Hvalid.
  assert (recordCount = length records /\ records <> []) as [-> Hne].
  { unfold validateInputCSV in Hvalid.
    destruct records; [done|].
    destruct (List.filter _ requiredColumns); [|done].
    by injection Hvalid as <- _. }
  unfold processAllRecords.
  destruct (processFrom_returns apiClient records records 0 [] 0 0 h)
    as (h' & out & -> & Hout).
  exists h', out. split; [done|].
  pose proof (Forall2_length _ _ _ Hout) as Hlen.
  split.
  - unfold writeEnhancedCSV. destruct out as [|e out].
    + destruct records; [done|discriminate].
    + by rewrite Hlen.
  - clear Hlen Hne Hvalid.
    induction Hout as [|record e rest out [a ->] _ IH]; [constructor|].
    constructor; [apply createEnhancedRecord_dom|done].
Qed.

End CsvPipeline.

(** ** Exporting twice *)

Section ExportFile.
Import CsvExport.

(** An export without rows or without a playlist name fails and leaves
    the files as they are.  Any other export creates one file, at a path
    that did not exist, and reports the number of rows; exporting the same
    playlist again creates a second file under another name. *)
Theorem exportTracksToCSV_never_overwrites resolve (files : gset string)
    (trackData : list Spotify.ExportRow) playlistName directory :
  (trackData = [] \/ playlistName = "" ->
   exists e,
     exportTracksToCSV resolve files trackData playlistName directory
       = Some (files, Thrown e)) /\
  (trackData <> [] -> playlistName <> "" ->
   exists first second,
     exportTracksToCSV resolve files trackData playlistName directory
       = Some ({[pathJoin directory first]} ∪ files,
               Returned {| export_filename := first;
                           export_fullPath := resolve (pathJoin directory first);
                           export_trackCount := length trackData |}) /\
     (pathJoin directory first ∉ files) /\
     exportTracksToCSV resolve ({[pathJoin directory first]} ∪ files)
         trackData playlistName directory
       = Some ({[pathJoin directory second]} ∪ ({[pathJoin directory first]} ∪ files),
               Returned {| export_filename := second;
                           export_fullPath := resolve (pathJoin directory second);
                           export_trackCount := length trackData |}) /\
     second <> first).
Proof.
  split.
  - intros [->| ->]; unfold exportTracksToCSV.
    + by eexists.
    + destruct trackData; by eexists.
  - intros Hdata Hname.
    destruct (generateUniqueFilename_finds files playlistName ".csv" directory)
      as (first & Hfirst & Hfree & _).
    destruct (generateUniqueFilename_finds ({[pathJoin directory first]} ∪ files)
                playlistName ".csv" directory)
      as (second & Hsecond & Hfree2 & _).
    exists first, second.
    unfold exportTracksToCSV.
    destruct trackData as [|row rows]; [done|].
    destruct (String.eqb_spec playlistName ""); [done|].
    rewrite Hfirst, Hsecond. repeat split; [done|].
    intros ->. set_solver.
Qed.

End ExportFile.

(** ** From a CSV to the identifiers of a new playlist *)

Section Creator.
Import PlaylistCreator.

Lemma dropWhileEnd_head p c r :
  p c = false -> exists r', JS.dropWhileEnd p (String c r) = String c r'.
Proof.
  intros Hc. simpl. rewrite Hc.
  destruct (JS.dropWhileEnd p r); by eexists.
Qed.

Lemma dropWhileEnd_cons p c s :
  JS.dropWhileEnd p (String c s)
  = match JS.dropWhileEnd p s with
    | EmptyString => if p c then EmptyString else String c EmptyString
    | r' => String c r'
    end.
Proof. reflexivity. Qed.

Lemma dropWhileEnd_idempotent p s :
  JS.dropWhileEnd p (JS.dropWhileEnd p s) = JS.dropWhileEnd p s.
Proof.
  induction s as [|c s IH]; [done|].
  rewrite (dropWhileEnd_cons p c s).
  destruct (JS.dropWhileEnd p s) as [|d r] eqn:Hs.
  - destruct (p c) eqn:Hc; [done|]. simpl. by rewrite Hc.
  - rewrite dropWhileEnd_cons. by rewrite IH.
Qed.

Lemma dropWhile_head p s c r : JS.dropWhile p s = String c r -> p c = false.
Proof.
  induction s as [|d s IH]; simpl; [done|].
  destruct (p d) eqn:Hd; [done|]. by intros [= <- _].
Qed.

(** [trim] leaves a trimmed string as it is. *)
Lemma trim_idempotent s : JS.trim (JS.trim s) = JS.trim s.
Proof.
  unfold JS.trim.
  destruct (JS.dropWhile JS.isSpace s) as [|c r] eqn:Hs; [done|].
  apply dropWhile_head in Hs.
  destruct (dropWhileEnd_head JS.isSpace c r Hs) as [r' Hr'].
  assert (JS.dropWhile JS.isSpace (String c r') = String c r') as Hkeep
    by (cbn [JS.dropWhile]; by rewrite Hs).
  rewrite Hr', Hkeep, <- Hr'.
  apply dropWhileEnd_idempotent.
Qed.

Lemma collectTrackIds_counts (rest : list (gmap string string)) :
  forall index ids invalid,
    Forall (fun id => id <> "" /\ JS.trim id = id) ids ->
    (length (collectTrackIds rest index ids invalid).1
     + length (collectTrackIds rest index ids invalid).2
     = length ids + length invalid + length rest)%nat /\
    Forall (fun id => id <> "" /\ JS.trim id = id)
           (collectTrackIds rest index ids invalid).1.
Proof.
  induction rest as [|record rest IH]; intros index ids invalid Hids.
  - simpl. split; [lia|done].
  - cbn [collectTrackIds].
    destruct (_ && _) eqn:Hvalid.
    + apply andb_prop in Hvalid as [_ Hne].
      destruct (IH (S index)
                  (ids ++ [JS.trim (default "" (record !! "Spotify Track ID"))])%list
                  invalid) as [Hcount Hall].
      { apply Forall_app. split; [done|]. constructor; [|done].
        split; [|apply trim_idempotent].
        by destruct (String.eqb_spec
                       (JS.trim (default "" (record !! "Spotify Track ID"))) ""). }
      split; [|done]. rewrite Hcount, length_app. simpl. lia.
    + destruct (IH (S index) ids
                  (invalid ++
                   [{| invalid_index := index + 1;
                       invalid_trackName :=
                         JS.orElse (record !! "Track Name") "Unknown";
                       invalid_artistName :=
                         JS.orElse (record !! "Artist Name") "Unknown";
                       invalid_reason :=
                         "Missing or invalid Spotify Track ID" |}])%list Hids)
        as [Hcount Hall].
      split; [|done]. rewrite Hcount, length_app. simpl. lia.
Qed.

Lemma validTrackId_trimmed id :
  id <> "" -> JS.trim id = id -> Spotify.validTrackId (JS.VStr id) = Some id.
Proof.
  intros Hne Htrim. unfold Spotify.validTrackId. simpl. rewrite Htrim.
  by destruct (String.eqb_spec id "").
Qed.

Lemma omap_validTrackId_trimmed ids :
  Forall (fun id => id <> "" /\ JS.trim id = id) ids ->
  omap Spotify.validTrackId (map JS.VStr ids) = ids.
Proof.
  induction 1 as [|id ids [Hne Htrim] _ IH]; [done|].
  change (omap Spotify.validTrackId (map JS.VStr (id :: ids)))
    with (match Spotify.validTrackId (JS.VStr id) with
          | Some y => y :: omap Spotify.validTrackId (map JS.VStr ids)
          | None => omap Spotify.validTrackId (map JS.VStr ids)
          end).
  rewrite validTrackId_trimmed by done. by rewrite IH.
Qed.

(** [extractTrackIds] sorts every record into the valid or the invalid
    ones, and keeps the valid identifiers trimmed and non-empty.  Handed
    to [addTracksToPlaylist], they are all submitted: none is skipped, and
    the added and failed ones make up the valid count. *)
Theorem extractTrackIds_feeds_addTracks (records : list (gmap string string)) :
  (validCount (extractTrackIds records) + invalidCount (extractTrackIds records)
   = totalRecords (extractTrackIds records))%nat /\
  totalRecords (extractTrackIds records) = length records /\
  Forall (fun id => id <> "" /\ JS.trim id = id)
         (trackIds (extractTrackIds records)) /\
  (forall apiClient playlistId h,
     trackIds (extractTrackIds records) <> [] ->
     exists h' result,
       Spotify.addTracksToPlaylist apiClient playlistId
         (map JS.VStr (trackIds (extractTrackIds records))) h
         = (h', Returned (Some result)) /\
       Spotify.skipped result = 0%nat /\
       (Spotify.successful result + Spotify.failed result
        = validCount (extractTrackIds records))%nat).
Proof.
  unfold extractTrackIds.
  destruct (collectTrackIds_counts records 0 [] [] (Forall_nil_2 _))
    as [Hcount Hall].
  destruct (collectTrackIds records 0 [] []) as [ids invalid]. simpl in *.
  split; [lia|]. split; [done|]. split; [done|].
  intros apiClient playlistId h Hne.
  pose proof (omap_validTrackId_trimmed ids Hall) as Hvalid.
  destruct (addTracksToPlaylist_additive apiClient playlistId
              (map JS.VStr ids) h) as (h' & result & Hrun & Hsum & Hskip).
  { by rewrite Hvalid. }
  exists h', result. split; [done|].
  rewrite Hvalid, length_map in Hskip. rewrite length_map in Hsum.
  split; lia.
Qed.

End Creator.

(** ** What the playlist writer sends *)

Section WriterHistory.
Import Spotify.

Lemma paced_cons playlistId batch batches :
  Spec.paced playlistId (batch :: batches)
  = (Call (PostPlaylistTracks playlistId batch)
     :: (if bool_decide (batches = []) then [] else [Sleep 100])
     ++ Spec.paced playlistId batches)%list.
Proof. by destruct batches. Qed.

Lemma addBatches_history apiClient playlistId validTrackIds fuel :
  forall i successful failed h,
    (length validTrackIds - i <= fuel * batchSize)%nat ->
    exists batches counts,
      addBatches fuel apiClient playlistId validTrackIds i successful failed h
        = ((h ++ Spec.paced playlistId batches)%list, Returned (Some counts)) /\
      concat batches
        = map (fun id => "spotify:track:" +:+ id) (drop i validTrackIds) /\
      Forall (fun batch => (1 <= length batch <= batchSize)%nat) batches /\
      (batches = [] <-> (length validTrackIds <= i)%nat).
Proof.
  induction fuel as [|fuel IH]; intros i s f h Hfuel.
  - exists [], (s, f). simpl.
    destruct (Nat.ltb_spec i (length validTrackIds)); [lia|].
    rewrite app_nil_r, drop_ge by lia. repeat split; (done || lia).
  - cbn [addBatches].
    destruct (Nat.ltb_spec i (length validTrackIds)) as [Hlt|Hge]; cycle 1.
    { exists [], (s, f). rewrite app_nil_r, drop_ge by lia.
      repeat split; (done || lia). }
    pose proof (slice_length i validTrackIds) as Hlen.
    assert (JSArray.slice i (i + batchSize) validTrackIds
            = take batchSize (drop i validTrackIds)) as Hslice.
    { unfold JSArray.slice. f_equal. lia. }
    set (batch := JSArray.slice i (i + batchSize) validTrackIds) in *.
    set (uris := map (fun id => "spotify:track:" +:+ id) batch).
    unfold bind at 1, tryCatch, bind at 1, request.
    set (h1 := (h ++ [Call (PostPlaylistTracks playlistId uris)])%list).
    assert (exists added,
              (let (h', o) :=
                 match apiClient h1 with
                 | Rejected e => (h1, Thrown e)
                 | Resolved d => (h1, Returned d)
                 end in
               match o with
               | Thrown e => (h', Thrown e)
               | Returned a => ret true h'
               end) = (h1, added) /\
              (added = Returned true \/ exists e, added = @Thrown bool e))
      as (added & -> & Hadded).
    { destruct (apiClient h1); eexists; (split; [reflexivity|]); eauto. }
    set (s' := fun added : bool => if added then (s + length batch)%nat else s).
    set (f' := fun added : bool => if added then f else (f + length batch)%nat).
    assert (exists outcome : bool,
              (match added with
               | Thrown e => ret false h1
               | Returned a => (h1, Returned a)
               end) = (h1, Returned outcome)) as [outcome ->].
    { destruct Hadded as [->|[e ->]]; by eexists. }
    unfold bind at 1.
    destruct (IH (i + batchSize)%nat (s' outcome) (f' outcome)
                (if bool_decide (length validTrackIds <= i + batchSize)%nat
                 then h1 else (h1 ++ [Sleep 100])%list))
      as (batches & counts & Hrun & Hconcat & Hall & Hnil);
      [unfold batchSize in *; lia|].
    exists (uris :: batches), counts. split; [|split; [|split]].
    + destruct (Nat.ltb_spec (i + batchSize) (length validTrackIds)) as [Hmore|Hlast].
      * rewrite bool_decide_eq_false_2 in Hrun by lia.
        unfold sleep. subst s' f'. cbn beta in Hrun. rewrite Hrun.
        rewrite paced_cons, bool_decide_eq_false_2 by (rewrite Hnil; lia).
        subst h1. by rewrite <- !app_assoc.
      * rewrite bool_decide_eq_true_2 in Hrun by lia.
        unfold ret at 1. subst s' f'. cbn beta in Hrun. rewrite Hrun.
        rewrite paced_cons, bool_decide_eq_true_2 by (rewrite Hnil; lia).
        subst h1. by rewrite <- !app_assoc.
    + simpl. rewrite Hconcat. subst uris. rewrite Hslice, <- map_app.
      f_equal. rewrite <- drop_drop. apply take_drop.
    + constructor; [|done]. subst uris. rewrite length_map.
      unfold batchSize in *. lia.
    + split; [done|lia].
Qed.

(** [addTracksToPlaylist] sends nothing when no identifier is valid.
    Otherwise the valid identifiers, and only they, are submitted as
    track URIs, each once and in their order, in batches of 1 to 100,
    with a pause of 100 ms between two batches and none after the last;
    a rejected batch does not stop the ones that follow. *)
Theorem addTracksToPlaylist_batches apiClient playlistId
    (trackIds : list JS.Value) h :
  (omap validTrackId trackIds = [] ->
   exists result,
     addTracksToPlaylist apiClient playlistId trackIds h = (h, Returned result)) /\
  (omap validTrackId trackIds <> [] ->
   exists batches result,
     addTracksToPlaylist apiClient playlistId trackIds h
       = ((h ++ Spec.paced playlistId batches)%list, Returned (Some result)) /\
     concat batches
       = map (fun id => "spotify:track:" +:+ id) (omap validTrackId trackIds) /\
     Forall (fun batch => (1 <= length batch <= 100)%nat) batches).
Proof.
  unfold addTracksToPlaylist, tryCatch. split.
  - intros ->. by eexists.
  - intros Hvalid.
    set (valid := omap validTrackId trackIds) in *.
    destruct (Nat.eqb_spec (length valid) 0) as [Hz|_];
      [by destruct valid|].
    unfold bind.
    destruct (addBatches_history apiClient playlistId valid (length valid) 0 0 0 h)
      as (batches & [s f] & -> & Hconcat & Hall & _);
      [unfold batchSize; lia|].
    eexists batches, _. split; [reflexivity|]. split; [done|exact Hall].
Qed.

End WriterHistory.

(** ** Paging through a playlist *)

Section Pagination.
Import Spotify.

Section Client.
Variables (apiClient : ApiClient) (playlistId : string).
Variables (page : Z -> list (option PlaylistItem)) (totals : Z -> option Z).
Variable total : Z.
Hypothesis client_pages :
  forall hist offset,
    apiClient (hist ++ [Call (pageRequest playlistId offset)])%list
    = Resolved (DPage (Some (page offset)) (totals offset)).
Hypothesis first_total : totals 0 = Some total.

Lemma collectPages_run :
  forall (r j fuel : nat) allTracks tot hist,
    (S r <= fuel)%nat ->
    (j + S r = Spec.pageCount total)%nat ->
    j = 0%nat \/ tot = Some total ->
    collectPages fuel apiClient playlistId allTracks (50 * Z.of_nat j) tot hist
    = ((hist ++ map (fun o => Call (pageRequest playlistId o))
                    (map (fun i => 50 * Z.of_nat i) (seq j (S r))))%list,
       Returned (Some (allTracks ++
                       concat (map (fun o => omap validTrack (page o))
                                   (map (fun i => 50 * Z.of_nat i) (seq j (S r)))))%list)).
Proof.
  induction r as [|r IH]; intros j fuel acc tot hist Hfuel Hcount Htot.
  - destruct fuel as [|fuel]; [lia|].
    rewrite (collectPages_round _ _ _ _ _ _ _ _ _
               (client_pages hist (50 * Z.of_nat j))).
    assert ((if 50 * Z.of_nat j =? 0 then totals (50 * Z.of_nat j) else tot)
            = Some total) as ->.
    { destruct Htot as [->| ->]; [done|].
      destruct (50 * Z.of_nat j =? 0) eqn:Hz; [|done].
      apply Z.eqb_eq in Hz. by rewrite Hz. }
    cbn [lessThan].
    destruct (Z.ltb_spec (50 * Z.of_nat j + 50) total) as [Hmore|_].
    { unfold Spec.pageCount in Hcount. Z.div_mod_to_equations. lia. }
    simpl. by rewrite app_nil_r.
  - destruct fuel as [|fuel]; [lia|].
    rewrite (collectPages_round _ _ _ _ _ _ _ _ _
               (client_pages hist (50 * Z.of_nat j))).
    assert ((if 50 * Z.of_nat j =? 0 then totals (50 * Z.of_nat j) else tot)
            = Some total) as ->.
    { destruct Htot as [->| ->]; [done|].
      destruct (50 * Z.of_nat j =? 0) eqn:Hz; [|done].
      apply Z.eqb_eq in Hz. by rewrite Hz. }
    cbn [lessThan].
    destruct (Z.ltb_spec (50 * Z.of_nat j + 50) total) as [_|Hlast].
    2: { unfold Spec.pageCount in Hcount. Z.div_mod_to_equations. lia. }
    replace (50 * Z.of_nat j + 50) with (50 * Z.of_nat (S j)) by lia.
    rewrite (IH (S j) fuel); [|lia|lia|by right].
    cbn [seq map concat]. by rewrite <- !app_assoc.
Qed.

End Client.


Lemma collectPages_ids apiClient playlistId fuel :
  forall allTracks offset total h h' tracks,
    Forall (fun t => JS.truthyStr (track_id t) = true) allTracks ->
    collectPages fuel apiClient playlistId allTracks offset total h
      = (h', Returned (Some tracks)) ->
    Forall (fun t => JS.truthyStr (track_id t) = true) tracks.
Proof.
  induction fuel as [|fuel IH]; intros acc offset total h h' tracks Hacc;
    [done|].
  cbn [collectPages]. unfold bind, request.
  destruct (apiClient _) as [e|[| |[items|] responseTotal| |]]; try done.
  assert (Forall (fun t => JS.truthyStr (track_id t) = true)
                 (acc ++ omap validTrack items)) as Hall.
  { apply Forall_app. split; [done|].
    apply Forall_forall. intros t (item & _ & Hitem)%list_elem_of_omap.
    unfold validTrack in Hitem.
    destruct item as [[ot]|]; [|done].
    destruct ot as [t'|]; [|done]. simpl in Hitem.
    destruct (JS.truthyStr (track_id t')) eqn:Hid; [|done].
    by injection Hitem as <-. }
  destruct (lessThan _ _); [by apply IH|].
  unfold ret. by intros [= _ <-].
Qed.

(** Every row of [getFormattedPlaylistTracks] carries a non-empty
    'Spotify Track ID', which is the identifier of its track, and a
    non-empty 'Track Name' and 'Album Name': entries without a track or
    without an identifier never reach the export. *)
Theorem getFormattedPlaylistTracks_rows `{Host} fuel apiClient playlistId h h' rows :
  getFormattedPlaylistTracks fuel apiClient playlistId h = (h', Returned (Some rows)) ->
  Forall (fun row =>
            row_SpotifyTrackID row <> "" /\
            row_TrackName row <> "" /\
            row_AlbumName row <> "") rows.
Proof.
  unfold getFormattedPlaylistTracks, getPlaylistTracks, tryCatch, bind.
  destruct (collectPages _ _ _ _ _ _ h) as [h1 [e|[tracks|]]] eqn:Hrun.
  - unfold rethrow. destruct e; discriminate.
  - unfold ret. intros [= _ <-].
    apply collectPages_ids in Hrun; [|constructor].
    unfold formatTracksForCsv. apply Forall_forall.
    intros row Hrow. apply list_elem_of_In, in_map_iff in Hrow as (t & <- & Ht).
    rewrite Forall_forall in Hrun. apply list_elem_of_In, Hrun in Ht.
    unfold formatTrackForCsv. cbn.
    unfold JS.truthyStr in Ht. unfold JS.orElse.
    destruct (track_id t) as [tid|]; [|done].
    destruct (String.eqb_spec tid ""); [done|].
    split; [done|]. split.
    + destruct (track_name t) as [name|]; [|done].
      by destruct (String.eqb_spec name "").
    + destruct (albumField album_name t) as [name|]; [|done].
      by destruct (String.eqb_spec name "").
  - discriminate.
Qed.

End Pagination.

(** ** Searching tracks and choosing the earliest album *)

Section TrackSearch.
Context `{Host}.
Import Spotify.

Lemma prefix_app a s : String.prefix a s = true <-> exists rest, s = a +:+ rest.
Proof.
  revert s. induction a as [|c a IH]; intros s.
  - destruct s; split; eauto.
  - destruct s as [|d s]; simpl.
    + split; [done|]. by intros [rest ?].
    + destruct (ascii_dec c d) as [->|Hne].
      * rewrite IH. split; intros [rest Hrest]; exists rest.
        -- by rewrite string_app_cons, Hrest.
        -- rewrite string_app_cons in Hrest. by injection Hrest.
      * split; [done|]. intros [rest Hrest].
        rewrite string_app_cons in Hrest. by injection Hrest.
Qed.

(** [includes] is the substring test. *)
Lemma includes_contains hay needle :
  JS.includes hay needle = true <-> Spec.contains hay needle.
Proof.
  unfold Spec.contains. induction hay as [|c hay IH]; cbn [JS.includes].
  - rewrite orb_false_r, prefix_app. split.
    + intros [rest ->]. by exists "", rest.
    + intros ([|d pre] & post & Heq); [by exists post|done].
  - rewrite orb_true_iff, prefix_app, IH. split.
    + intros [[rest ->]|(pre & post & ->)];
        [by exists "", rest|by exists (String c pre), post].
    + intros ([|d pre] & post & Heq); [left; by exists post|].
      right. rewrite string_app_cons in Heq. injection Heq as -> ->. eauto.
Qed.

Lemma filterTracks_Returned p items tracks :
  filterTracks p items = Returned tracks ->
  Forall (fun t => p t = true /\ In (Some t) items) tracks.
Proof.
  revert tracks. induction items as [|[t|] items IH]; intros tracks; simpl.
  - intros [= <-]. constructor.
  - destruct (filterTracks p items) as [e|r]; [done|].
    intros [= <-].
    assert (Forall (fun t0 => p t0 = true /\ (Some t = Some t0 \/ In (Some t0) items)) r)
      as Hr.
    { eapply Forall_impl; [by apply IH|]. intros ? [? ?]. auto. }
    destruct (p t) eqn:Hp; [|done]. constructor; [auto|done].
  - done.
Qed.

Lemma searchTracks_history apiClient tn an h :
  exists outcome,
    searchTracksByNameAndArtist apiClient tn an h
    = ((h ++ [Call (GetSearch (trackQuery tn an) "track" 50)])%list, outcome).
Proof.
  unfold searchTracksByNameAndArtist. run_async.
  destruct (apiClient _) as [[status m|m]|d]; simpl; try by eexists.
  destruct d as [|[[|t items]|]| | |]; cbn -[filterTracks]; try by eexists.
  destruct (filterTracks _ _) as [[status m|m]|r]; unfold throw; by eexists.
Qed.

(** A track search costs one request, and every track it returns
    matches loosely: its name contains the name searched for and one of
    its artists' names contains the artist searched for, letter case
    apart; a track that matches in one of the two only is left out. *)
Theorem searchTracksByNameAndArtist_matches apiClient tn an h h' tracks :
  searchTracksByNameAndArtist apiClient tn an h = (h', Returned tracks) ->
  h' = (h ++ [Call (GetSearch (trackQuery tn an) "track" 50)])%list /\
  Forall (fun track =>
            (exists name,
               track_name track = Some name /\
               Spec.contains (toLowerCase name) (toLowerCase tn)) /\
            (exists artists artist name,
               track_artists track = Some artists /\
               In artist artists /\
               artist_name artist = Some name /\
               Spec.contains (toLowerCase name) (toLowerCase an)))
         tracks.
Proof.
  intros Hrun.
  destruct (searchTracks_history apiClient tn an h) as [outcome Hhist].
  assert (h' = (h ++ [Call (GetSearch (trackQuery tn an) "track" 50)])%list)
    as -> by congruence.
  split; [done|]. clear outcome Hhist.
  revert Hrun. unfold searchTracksByNameAndArtist. run_async.
  destruct (apiClient _) as [[status m|m]|d]; simpl; try done.
  destruct d as [|[[|t items]|]| | |]; cbn -[filterTracks]; try done;
    try (intros [= <-]; constructor).
  destruct (filterTracks _ _) as [e|r] eqn:Hfilter; simpl; [destruct e; done|].
  intros [= <-].
  apply filterTracks_Returned in Hfilter.
  eapply Forall_impl; [exact Hfilter|].
  intros track [Hmatch _]. unfold trackMatches in Hmatch.
  apply andb_prop in Hmatch as [Hname Hartist]. split.
  - destruct (track_name track) as [name|]; [|done].
    apply andb_prop in Hname as [_ Hname].
    exists name. split; [done|]. by apply includes_contains.
  - destruct (track_artists track) as [artists|]; [|done].
    apply existsb_exists in Hartist as (artist & Hin & Hmatch).
    destruct (artist_name artist) as [name|] eqn:Hn; [|done].
    apply andb_prop in Hmatch as [_ Hmatch].
    exists artists, artist, name. repeat split; try done.
    by apply includes_contains.
Qed.

Lemma compareAlbums_refl a : compareAlbums a a <= 0.
Proof.
  apply compareAlbums_le. right. split; [done|].
  by rewrite (proj2 (localeCompare_zero _ _) eq_refl).
Qed.

(** For a year other than 0, and the tracks the search returns:
    [findEarliestAlbumBeforeYear] returns none exactly when no regular
    album among them was released in a known year before the given one;
    otherwise it returns one of these albums, and no other of them comes
    before it in the order by year and name. *)
Theorem findEarliestAlbumBeforeYear_earliest apiClient tn an y h h' tracks :
  y <> 0 ->
  searchTracksByNameAndArtist apiClient tn an h = (h', Returned tracks) ->
  exists result,
    findEarliestAlbumBeforeYear apiClient tn an y h = (h', Returned result) /\
    (result = None <->
     forall info,
       In info (formatAlbumInformation tracks) ->
       typeIs "album" info = true -> releasedBefore y info = false) /\
    (forall candidate,
       result = Some candidate ->
       In candidate (formatAlbumInformation tracks) /\
       typeIs "album" candidate = true /\
       releasedBefore y candidate = true /\
       forall info,
         In info (formatAlbumInformation tracks) ->
         typeIs "album" info = true -> releasedBefore y info = true ->
         releaseYear candidate < releaseYear info \/
         (releaseYear candidate = releaseYear info /\
          localeCompare (albumName candidate) (albumName info) <= 0)).
Proof.
  intros Hy Hsearch.
  unfold findEarliestAlbumBeforeYear, getTrackAlbumInformation.
  unfold bind at 1. unfold bind at 1. rewrite Hsearch.
  change (supplied (Some "album")) with (Some "album").
  cbn [JS.truthy JS.isNumber]. rewrite andb_true_r.
  destruct (Z.eqb_spec y 0) as [|_]; [done|]. cbn [negb].
  set (infos := formatAlbumInformation tracks).
  set (chosen := List.filter (releasedBefore y)
                   (List.filter (typeIs "album") infos)).
  assert (forall info,
            In info chosen <->
            In info infos /\ typeIs "album" info = true /\
            releasedBefore y info = true) as Hchosen.
  { intros info. subst chosen. rewrite !filter_In. tauto. }
  pose proof (sort_perm compareAlbums chosen) as Hperm.
  pose proof (sort_sorted compareAlbums compareAlbums_total compareAlbums_trans
                chosen) as Hsorted.
  unfold sortAlbumsByReleaseYear, ret.
  destruct (JSArray.sort compareAlbums chosen) as [|first rest] eqn:Hsort.
  - exists None. split; [done|]. split; [|done].
    symmetry in Hperm. apply Permutation_nil in Hperm.
    split; [|done]. intros _ info Hin Htype.
    destruct (releasedBefore y info) eqn:Hbefore; [|done].
    assert (In info chosen) as Habs by (apply Hchosen; auto).
    by rewrite Hperm in Habs.
  - exists (Some first). split; [done|]. split.
    + split; [done|]. intros Hnone.
      assert (In first chosen) as Hin.
      { apply list_elem_of_In. rewrite Hperm. by left. }
      apply Hchosen in Hin as (Hin & Htype & Hbefore).
      rewrite (Hnone first Hin Htype) in Hbefore. done.
    + intros candidate [= <-].
      assert (In first chosen) as Hin.
      { apply list_elem_of_In. rewrite Hperm. by left. }
      apply Hchosen in Hin as (Hin & Htype & Hbefore).
      repeat split; try done.
      intros info Hinfo Htype' Hbefore'.
      apply compareAlbums_le.
      assert (In info chosen) as Hin' by (apply Hchosen; auto).
      apply list_elem_of_In in Hin'. rewrite Hperm in Hin'.
      apply elem_of_cons in Hin' as [->|Hrest]; [apply compareAlbums_refl|].
      apply StronglySorted_inv in Hsorted as [_ Hall].
      rewrite Forall_forall in Hall. by apply Hall.
Qed.

End TrackSearch.

(** ** The pace of batch enrichment *)

Section Pace.
Context `{Host}.
Import CsvProcessor BatchProcessor.

Lemma findEarliest_history apiClient tn an y h :
  exists outcome,
    Spotify.findEarliestAlbumBeforeYear apiClient tn an y h
    = ((h ++ [Call (GetSearch (Spotify.trackQuery tn an) "track" 50)])%list, outcome).
Proof.
  unfold Spotify.findEarliestAlbumBeforeYear, Spotify.getTrackAlbumInformation.
  unfold bind at 1. unfold bind at 1.
  destruct (searchTracks_history apiClient tn an h) as [[e|tracks] ->];
    by eexists.
Qed.

Lemma processTrackRecord_history apiClient record index total h :
  exists events enhanced,
    processTrackRecord apiClient record index total h
    = ((h ++ events)%list, Returned enhanced) /\
    (events = [] \/ exists q, events = [Call (GetSearch q "track" 50)]).
Proof.
  unfold processTrackRecord, tryCatch.
  destruct (_ || _).
  - exists [], (createEnhancedRecord record None).
    rewrite app_nil_r. split; [done|by left].
  - unfold bind.
    destruct (findEarliest_history apiClient
                (default "" (record !! "Track Name"))
                (default "" (record !! "Artist Name"))
                (default 0 (JS.parseInt (record !! "Release Year"))) h)
      as [[e|a] ->]; eexists _, _; (split; [reflexivity|]); right; by eexists.
Qed.

Lemma processFrom_history apiClient records rest :
  forall i enhancedRecords processedCount foundCount h,
    (i + length rest = length records)%nat ->
    exists events output,
      processFrom apiClient records rest i enhancedRecords processedCount
        foundCount h
      = ((h ++ events)%list, Returned output) /\
      length (List.filter Spec.isSleep events) = (length rest - 1)%nat /\
      (length (List.filter Spec.isCall events) <= length rest)%nat /\
      Forall (fun e => e = Sleep 100 \/ exists q, e = Call (GetSearch q "track" 50))
             events.
Proof.
  induction rest as [|record rest IH]; intros i acc pc fc h Hi.
  - exists [], acc. simpl. rewrite app_nil_r. repeat split; (done || lia).
  - cbn [processFrom]. unfold bind at 1.
    destruct (processTrackRecord_history apiClient record i (length records) h)
      as (ev & e & -> & Hev).
    unfold bind at 1.
    simpl in Hi.
    destruct (Nat.ltb_spec i (length records - 1)) as [Hmore|Hlast].
    + unfold sleep.
      edestruct (IH (S i)) as (events & output & -> & Hsleeps & Hcalls & Hall);
        [lia|].
      exists (ev ++ [Sleep 100] ++ events)%list, output.
      split; [by rewrite <- !app_assoc|].
      rewrite !List.filter_app, !length_app, Hsleeps.
      destruct Hev as [->|[q ->]]; simpl.
      * split; [lia|]. split; [lia|]. constructor; [by left|done].
      * split; [lia|]. split; [lia|].
        constructor; [right; by eexists|]. constructor; [by left|done].
    + unfold ret at 1.
      edestruct (IH (S i)) as (events & output & -> & Hsleeps & Hcalls & Hall);
        [lia|].
      assert (rest = []) as -> by (destruct rest; [done|simpl in Hi; lia]).
      exists (ev ++ events)%list, output.
      split; [by rewrite <- !app_assoc|].
      rewrite !List.filter_app, !length_app, Hsleeps.
      destruct Hev as [->|[q ->]]; simpl in *.
      * split; [lia|]. split; [lia|done].
      * split; [lia|]. split; [lia|]. constructor; [right; by eexists|done].
Qed.


End Pace.

(** ** Sanitized file names *)

Section Sanitize.
Import CsvExport.

Lemma take_length n s : (String.length (JS.take n s) <= n)%nat.
Proof.
  revert s. induction n as [|n IH]; intros [|c s]; simpl; try lia.
  specialize (IH s). lia.
Qed.

Lemma take_allChars p n s :
  Spec.allChars p s = true -> Spec.allChars p (JS.take n s) = true.
Proof.
  revert s. induction n as [|n IH]; intros [|c s]; simpl; try done.
  intros [-> Hs]%andb_prop. by apply IH.
Qed.

Lemma dropWhile_allChars p q s :
  Spec.allChars p s = true -> Spec.allChars p (JS.dropWhile q s) = true.
Proof.
  induction s as [|c s IH]; simpl; [done|].
  intros Hs. destruct (q c); [|done].
  apply andb_prop in Hs as [_ Hs]. by apply IH.
Qed.

Lemma dropWhileEnd_allChars p q s :
  Spec.allChars p s = true -> Spec.allChars p (JS.dropWhileEnd q s) = true.
Proof.
  induction s as [|c s IH]; [done|].
  rewrite dropWhileEnd_cons. simpl.
  intros [Hc Hs]%andb_prop. specialize (IH Hs).
  destruct (JS.dropWhileEnd q s).
  - destruct (q c); simpl; [done|by rewrite Hc].
  - cbn [Spec.allChars] in *. by rewrite Hc.
Qed.

Lemma replaceEach_allChars p r s :
  p r = false ->
  Spec.allChars (fun c => negb (p c)) (replaceEach p r s) = true.
Proof.
  intros Hr. induction s as [|c s IH]; simpl; [done|].
  rewrite IH. destruct (p c) eqn:Hc; by rewrite ?Hr, ?Hc.
Qed.

(** Replacing runs keeps a property that the replacement has. *)
Lemma replaceRuns_allChars q p r inRun s :
  q r = true -> Spec.allChars q s = true ->
  Spec.allChars q (replaceRuns p r inRun s) = true.
Proof.
  intros Hr. revert inRun. induction s as [|c s IH]; intros inRun; simpl; [done|].
  intros [Hc Hs]%andb_prop.
  destruct (p c); [destruct inRun|]; simpl; rewrite ?Hr, ?Hc; by apply IH.
Qed.

(** Replacing the runs of a class leaves no character of the class. *)
Lemma replaceRuns_none p r inRun s :
  p r = false ->
  Spec.allChars (fun c => negb (p c)) (replaceRuns p r inRun s) = true.
Proof.
  intros Hr. revert inRun. induction s as [|c s IH]; intros inRun; simpl; [done|].
  destruct (p c) eqn:Hc; [destruct inRun|]; simpl; rewrite ?Hr, ?Hc; by apply IH.
Qed.

Lemma replaceRuns_noDouble previous inRun s :
  (previous = true -> inRun = true) ->
  Spec.noDoubleUnderscore previous
    (replaceRuns isUnderscore "_"%char inRun s) = true.
Proof.
  revert previous inRun. induction s as [|c s IH]; intros previous inRun Hflag;
    simpl; [done|].
  unfold isUnderscore at 1.
  destruct (Ascii.eqb c "_"%char) eqn:Hc.
  - destruct inRun.
    + by apply IH.
    + simpl. destruct previous; [by specialize (Hflag eq_refl)|].
      simpl. by apply IH.
  - simpl. rewrite Hc, andb_false_r. simpl. by apply IH.
Qed.

Lemma noDouble_weaken previous s :
  Spec.noDoubleUnderscore previous s = true ->
  Spec.noDoubleUnderscore false s = true.
Proof.
  destruct s as [|c s]; simpl; [done|].
  by intros [_ ->]%andb_prop.
Qed.

Lemma dropWhile_noDouble q previous s :
  Spec.noDoubleUnderscore previous s = true ->
  Spec.noDoubleUnderscore false (JS.dropWhile q s) = true.
Proof.
  revert previous. induction s as [|c s IH]; intros previous; simpl; [done|].
  intros Hs. destruct (q c).
  - apply andb_prop in Hs as [_ Hs]. by eapply IH.
  - eapply noDouble_weaken. simpl. exact Hs.
Qed.

Lemma dropWhileEnd_noDouble q previous s :
  Spec.noDoubleUnderscore previous s = true ->
  Spec.noDoubleUnderscore previous (JS.dropWhileEnd q s) = true.
Proof.
  revert previous. induction s as [|c s IH]; intros previous; [done|].
  rewrite dropWhileEnd_cons. simpl.
  intros [Hc Hs]%andb_prop. specialize (IH _ Hs).
  destruct (JS.dropWhileEnd q s).
  - destruct (q c); simpl; [done|by rewrite Hc].
  - cbn [Spec.noDoubleUnderscore] in *. by rewrite Hc.
Qed.

Lemma take_noDouble n previous s :
  Spec.noDoubleUnderscore previous s = true ->
  Spec.noDoubleUnderscore previous (JS.take n s) = true.
Proof.
  revert previous s. induction n as [|n IH]; intros previous [|c s]; simpl;
    try done.
  intros [-> Hs]%andb_prop. by apply IH.
Qed.

Lemma take_head n s c r :
  JS.take n s = String c r -> exists r', s = String c r'.
Proof.
  destruct n as [|n], s as [|d s]; simpl; try done.
  intros [= -> _]. by eexists.
Qed.

Lemma dropWhileEnd_head_inv q s c r :
  JS.dropWhileEnd q s = String c r -> exists r', s = String c r'.
Proof.
  destruct s as [|d s]; [done|]. rewrite dropWhileEnd_cons.
  destruct (JS.dropWhileEnd q s).
  - destruct (q d); [done|]. intros [= -> _]. by eexists.
  - intros [= -> _]. by eexists.
Qed.

(** Whatever the playlist is called, the sanitized name has at most 100
    characters, none of them illegal in a file name (so no path
    separator) and none white space, has no two underscores in a row and
    does not start with an underscore. *)
Theorem sanitizeFilename_safe (filename : string) :
  (String.length (sanitizeFilename filename) <= 100)%nat /\
  Spec.allChars (fun c => negb (isIllegal c)) (sanitizeFilename filename) = true /\
  Spec.allChars (fun c => negb (JS.isSpace c)) (sanitizeFilename filename) = true /\
  Spec.noDoubleUnderscore false (sanitizeFilename filename) = true /\
  (forall r, sanitizeFilename filename <> String "_"%char r).
Proof.
  unfold sanitizeFilename. split; [apply take_length|].
  split; [|split; [|split]].
  - apply take_allChars, dropWhileEnd_allChars, dropWhile_allChars.
    apply replaceRuns_allChars; [done|]. apply replaceRuns_allChars; [done|].
    by apply replaceEach_allChars.
  - apply take_allChars, dropWhileEnd_allChars, dropWhile_allChars.
    apply replaceRuns_allChars; [done|]. by apply replaceRuns_none.
  - apply take_noDouble, dropWhileEnd_noDouble.
    eapply dropWhile_noDouble. by apply (replaceRuns_noDouble false false).
  - intros r Heq.
    apply take_head in Heq as [r1 Heq].
    apply dropWhileEnd_head_inv in Heq as [r2 Heq].
    by apply dropWhile_head in Heq.
Qed.

End Sanitize.

(** ** The further theorems at sample inputs *)

Section MoreSamples.
#[local] Existing Instance AsciiHost.host.
Import Spotify.

Lemma validated_csv_is_written_witness :
  CsvProcessor.validateInputCSV 2024 [Examples.yesterdayRow "1970"]
    = CsvProcessor.Valid 1 0 /\
  exists h' (output : list (gmap string JS.Value)),
    BatchProcessor.processAllRecords Examples.failingClient
      [Examples.yesterdayRow "1970"] [] = (h', Returned output) /\
    CsvProcessor.writeEnhancedCSV ∅ output "out.csv"
      = ({["out.csv"]} ∪ ∅,
         Returned {| CsvProcessor.written_filename := "out.csv";
                     CsvProcessor.written_recordCount := 1 |}) /\
    Forall (fun enhanced : gmap string JS.Value =>
              dom enhanced = (list_to_set CsvProcessor.enhancedHeaders : gset string))
           output.
Proof.
  assert (CsvProcessor.validateInputCSV 2024 [Examples.yesterdayRow "1970"]
          = CsvProcessor.Valid 1 0) as Hvalid by (vm_compute; reflexivity).
  split; [exact Hvalid|].
  apply (validated_csv_is_written 2024 Examples.failingClient
           [Examples.yesterdayRow "1970"] [] ∅ "out.csv" 1 0 Hvalid).
Defined.


Lemma getFormattedPlaylistTracks_rows_witness :
  exists h' rows,
    getFormattedPlaylistTracks 3 Examples.pagedClient "pl" []
      = (h', Returned (Some rows)) /\
    length rows = 3%nat /\
    Forall (fun row =>
              row_SpotifyTrackID row <> "" /\
              row_TrackName row <> "" /\
              row_AlbumName row <> "") rows.
Proof.
  destruct (getFormattedPlaylistTracks 3 Examples.pagedClient "pl" [])
    as [h' [e|[rows|]]] eqn:Hrun;
    [vm_compute in Hrun; discriminate Hrun | | vm_compute in Hrun; discriminate Hrun].
  exists h', rows. split; [reflexivity|]. split.
  - vm_compute in Hrun. injection Hrun as _ <-. reflexivity.
  - apply (getFormattedPlaylistTracks_rows 3 Examples.pagedClient "pl" [] h' rows
             Hrun).
Defined.

Lemma searchTracksByNameAndArtist_matches_witness :
  exists h' tracks,
    searchTracksByNameAndArtist Examples.beatlesClient "yesterday" "beatles" []
      = (h', Returned tracks) /\
    length tracks = 2%nat /\
    h' = ([] ++ [Call (GetSearch (trackQuery "yesterday" "beatles") "track" 50)])%list.
Proof.
  destruct (searchTracksByNameAndArtist Examples.beatlesClient
              "yesterday" "beatles" [])
    as [h' [e|tracks]] eqn:Hrun; [vm_compute in Hrun; discriminate Hrun|].
  exists h', tracks. split; [reflexivity|]. split.
  - vm_compute in Hrun. injection Hrun as _ <-. reflexivity.
  - apply (proj1 (searchTracksByNameAndArtist_matches Examples.beatlesClient
                    "yesterday" "beatles" [] h' tracks Hrun)).
Defined.

Lemma findEarliestAlbumBeforeYear_earliest_witness :
  1970 <> 0 /\
  exists h' tracks result,
    searchTracksByNameAndArtist Examples.beatlesClient "Yesterday" "The Beatles" []
      = (h', Returned tracks) /\
    findEarliestAlbumBeforeYear Examples.beatlesClient
      "Yesterday" "The Beatles" 1970 [] = (h', Returned result) /\
    (result = None <->
     forall info,
       In info (formatAlbumInformation tracks) ->
       typeIs "album" info = true -> releasedBefore 1970 info = false).
Proof.
  assert (1970 <> 0) as Hy by discriminate.
  split; [exact Hy|].
  destruct (searchTracksByNameAndArtist Examples.beatlesClient
              "Yesterday" "The Beatles" [])
    as [h' [e|tracks]] eqn:Hrun; [vm_compute in Hrun; discriminate Hrun|].
  destruct (findEarliestAlbumBeforeYear_earliest Examples.beatlesClient
              "Yesterday" "The Beatles" 1970 [] h' tracks Hy Hrun)
    as (result & Hfind & Hnone & _).
  exists h', tracks, result. split; [reflexivity|]. split; [exact Hfind|exact Hnone].
Defined.

(** Three identifiers out of four records, trimmed; a playlist picked
    by its number; a CSV without the year column. *)
Example extractTrackIds_sample :
  PlaylistCreator.trackIds
    (PlaylistCreator.extractTrackIds
       [<["Spotify Track ID" := " abc "]> ∅; <["Spotify Track ID" := "   "]> ∅;
        <["Spotify Track ID" := "def"]> ∅; ∅]) = ["abc"; "def"] /\
  map PlaylistCreator.invalid_index
    (PlaylistCreator.invalidRecords
       (PlaylistCreator.extractTrackIds
          [<["Spotify Track ID" := " abc "]> ∅; <["Spotify Track ID" := "   "]> ∅;
           <["Spotify Track ID" := "def"]> ∅; ∅])) = [2; 4]%nat.
Proof. split; by vm_compute. Qed.

Example selectPlaylistFromList_sample :
  selectPlaylistFromList " 2 "
    [Examples.namedPlaylist "a" "x"; Examples.namedPlaylist "b" "y"]
    = Returned (Examples.namedPlaylist "b" "y") /\
  selectPlaylistFromList "3"
    [Examples.namedPlaylist "a" "x"; Examples.namedPlaylist "b" "y"]
    = Thrown (JsError "Invalid selection. Please enter a number between 1 and 2") /\
  selectPlaylistFromList "two"
    [Examples.namedPlaylist "a" "x"; Examples.namedPlaylist "b" "y"]
    = Thrown (JsError "Invalid selection. Please enter a number between 1 and 2").
Proof. repeat split; by vm_compute. Qed.

Example validateInputCSV_sample :
  CsvProcessor.validateInputCSV 2024
    [<["Track Name" := "t"]> (<["Artist Name" := "a"]> ∅)]
    = CsvProcessor.Invalid
        "Missing required columns: Release Year, Spotify Track ID" /\
  CsvProcessor.validateInputCSV 2024
    [Examples.yesterdayRow "1970"; Examples.yesterdayRow "1850";
     Examples.yesterdayRow "soon"; Examples.yesterdayRow "2026"]
    = CsvProcessor.Valid 4 3.
Proof. split; by vm_compute. Qed.

End MoreSamples.

(** ** Listing the albums of a track *)

Section AlbumList.
Context `{Host}.
Import Spotify.

(** Asked for one album type and no year, as the single-track lookup
    does, [getTrackAlbumInformation] drops no album of that type, whatever
    its year (an unknown year counts as 0), and returns them ordered by
    year and name, so that albums of unknown year come before the dated
    ones of our era. *)
Theorem getTrackAlbumInformation_type_only apiClient tn an albumTypeFilter
    h h' tracks :
  albumTypeFilter <> "" ->
  searchTracksByNameAndArtist apiClient tn an h = (h', Returned tracks) ->
  exists albums,
    getTrackAlbumInformation apiClient tn an (Some albumTypeFilter) JS.VNull h
      = (h', Returned albums) /\
    Permutation
      (List.filter (typeIs albumTypeFilter) (formatAlbumInformation tracks))
      albums /\
    (forall (i j : nat) a b,
       (i < j)%nat -> albums !! i = Some a -> albums !! j = Some b ->
       releaseYear a < releaseYear b \/
       (releaseYear a = releaseYear b /\
        localeCompare (albumName a) (albumName b) <= 0)) /\
    (forall (i j : nat) a b,
       albums !! i = Some a -> albums !! j = Some b ->
       releaseYear a = 0 -> 0 < releaseYear b -> (i < j)%nat).
Proof.
  intros Hfilter Hsearch.
  unfold getTrackAlbumInformation, bind. rewrite Hsearch.
  assert (supplied (Some albumTypeFilter) = Some albumTypeFilter) as ->.
  { unfold supplied, JS.truthyStr.
    by destruct (String.eqb_spec albumTypeFilter ""). }
  unfold ret, sortAlbumsByReleaseYear.
  set (chosen := List.filter (typeIs albumTypeFilter) (formatAlbumInformation tracks)).
  pose proof (sort_sorted compareAlbums compareAlbums_total compareAlbums_trans
                chosen) as Hsorted.
  assert (forall (i j : nat) a b,
            (i < j)%nat ->
            JSArray.sort compareAlbums chosen !! i = Some a ->
            JSArray.sort compareAlbums chosen !! j = Some b ->
            releaseYear a < releaseYear b \/
            (releaseYear a = releaseYear b /\
             localeCompare (albumName a) (albumName b) <= 0)) as Horder.
  { intros i j a b Hij Hi Hj. apply compareAlbums_le.
    eapply (StronglySorted_lookup _ _ Hsorted); eauto. }
  eexists. split; [reflexivity|]. split; [apply sort_perm|]. split; [exact Horder|].
  intros i j a b Hi Hj Ha Hb.
  destruct (Nat.lt_trichotomy i j) as [Hlt|[->|Hgt]]; [done| |].
  - rewrite Hi in Hj. injection Hj as ->. lia.
  - destruct (Horder j i b a Hgt Hj Hi); lia.
Qed.

End AlbumList.

Section AlbumListSample.
#[local] Existing Instance AsciiHost.host.
Import Spotify.

Lemma getTrackAlbumInformation_type_only_witness :
  "album" <> "" /\
  exists h' tracks albums,
    searchTracksByNameAndArtist Examples.beatlesClient "Yesterday" "The Beatles" []
      = (h', Returned tracks) /\
    getTrackAlbumInformation Examples.beatlesClient "Yesterday" "The Beatles"
      (Some "album") JS.VNull [] = (h', Returned albums) /\
    Permutation (List.filter (typeIs "album") (formatAlbumInformation tracks))
                albums.
Proof.
  assert ("album" <> "") as Hne by discriminate.
  split; [exact Hne|].
  destruct (searchTracksByNameAndArtist Examples.beatlesClient
              "Yesterday" "The Beatles" [])
    as [h' [e|tracks]] eqn:Hrun; [vm_compute in Hrun; discriminate Hrun|].
  destruct (getTrackAlbumInformation_type_only Examples.beatlesClient
              "Yesterday" "The Beatles" "album" [] h' tracks Hne Hrun)
    as (albums & Hfind & Hperm & _).
  exists h', tracks, albums. split; [reflexivity|]. split; [exact Hfind|exact Hperm].
Defined.

End AlbumListSample.
